(** * ActionTranslate: the translation action controller

    A shallow embedding of the React component
    [src/renderer/src/windows/selection/action/components/ActionTranslate.tsx]
    and the properties of its controller logic: initialization, fetch
    orchestration, status synchronisation, language preference handling,
    pause and regenerate.

    How the component is read.
    - The [useState] cells and the [useRef] cells are two records, [Hooks]
      and [Refs], kept in a [World] together with the settings table and
      the chronological list of calls the component made to its
      collaborators (logger, settings table, React setters, assistant
      service, completion service, tracing).
    - A function of the component is a closure of one render: it reads the
      state values that render saw ([Render]), and it reads and writes the
      refs of the world as they are at the time of the call.
    - A [useCallback]/[useEffect] pair runs again after a render exactly
      when one of the listed dependencies differs from the previous
      render; values with reference identity (the [action] prop, the
      function props, the catalog lookup) carry an explicit reference.
    - [initialize] is [async]: it yields at [await updateTargetLanguage()],
      which itself awaits the settings read.  [initialize_begin] is the
      call up to that await and [initialize_resume] its continuation;
      [Live] keeps the suspended calls beside the world, and the event
      [SettingsRead] resumes the oldest one.  [initialize] is the call
      whose read resolves before anything else happens (begin, then
      resume at once); the operations of [Op] and [run] take every call
      that way, one after the other. *)

From Stdlib Require Import String List Bool Arith Lia.
From stdpp Require Import base option list strings gmap.

Local Open Scope string_scope.

(** ** Collaborators that live outside the component *)

(** The types and functions the component imports: the language catalog
    values ([TranslateLanguage], [UNKNOWN], [LanguagesEnum.zhCN]) and the
    assistant service ([getDefaultTranslateAssistant], [getDefaultTopic]).
    [TranslateLanguage] values are catalog objects; equality on them is
    the reference comparison [===] of the source.  The two service
    functions are taken as total. *)
Class Collaborators := {
  TranslateLanguage : Type;
  TranslateLanguage_eq_dec :: EqDecision TranslateLanguage;
  langCode : TranslateLanguage -> string;
  UNKNOWN : TranslateLanguage;
  zhCN : TranslateLanguage;
  Assistant : Type;
  assistant_id : Assistant -> string;
  assistant_content : Assistant -> string;
  Topic : Type;
  topic_id : Topic -> string;
  defaultTranslateAssistant : TranslateLanguage -> string -> Assistant;
  defaultTopic : string -> Topic
}.

(** JavaScript truthiness of a string: the empty string is falsy. *)
Definition truthy (s : string) : bool := negb (String.eqb s "").

(** ** Messages of a topic *)

Inductive Role := user | assistant | system.

#[global] Instance Role_eq_dec : EqDecision Role.
Proof. solve_decision. Defined.

Record Message := {
  msg_id : string;
  msg_role : Role;
  msg_status : string
}.

(** Modelled from the spec: the members of the enum
    [AssistantMessageStatus], declared in [@renderer/types/newMessage];
    the status table names them pending, processing, searching, paused,
    error and success. *)
Module AssistantMessageStatus.
Definition PROCESSING := "processing".
Definition PENDING := "pending".
Definition SEARCHING := "searching".
Definition SUCCESS := "success".
Definition PAUSED := "paused".
Definition ERROR := "error".
End AssistantMessageStatus.

(** ** State of the component *)

Inductive ControllerStatus := preparing | streaming | finished.

Inductive Level := silly | debug | warn | error_level.

(** The [action] prop: an object (its reference) and its [selectedText]. *)
Record ActionItem := {
  action_ref : nat;
  selectedText : option string
}.

Section Controller.
Context `{C : Collaborators}.

(** The [useState] cells. *)
Record Hooks := {
  targetLanguage : TranslateLanguage;
  error : string;
  showOriginal : bool;
  status : ControllerStatus;
  contentToCopy : string;
  initialized : bool
}.

(** The [useRef] cells. *)
Record Refs := {
  assistantRef : option Assistant;
  topicRef : option Topic;
  askId : string;
  targetLangRef : TranslateLanguage
}.

(** What a render receives from outside: the props, and the results of
    the hooks [useSettings], [useTranslate] and [useTopicMessages]. *)
Record Env := {
  action : ActionItem;
  scrollToBottom_ref : nat;
  language : string;
  getLanguageByLangcode : string -> TranslateLanguage;
  getLanguageByLangcode_ref : nat;
  isLanguagesLoaded : bool;
  useTopicMessages : string -> list Message
}.

(** What the closures of one render have captured. *)
Record Render := {
  env : Env;
  seen : Hooks;
  allMessages : list Message
}.

(** A call the component makes to something outside itself. *)
Inductive Call :=
| CLog (lvl : Level) (msg : string)
| CDbGet (id : string)
| CDbPut (id value : string)
| CSetTargetLanguage (l : TranslateLanguage)
| CSetError (s : string)
| CSetShowOriginal (b : bool)
| CSetStatus (st : ControllerStatus)
| CSetContentToCopy (s : string)
| CSetInitialized (b : bool)
| CGetDefaultTranslateAssistant (l : TranslateLanguage) (text : string)
| CGetDefaultTopic (assistantId : string)
| CProcessMessages (a : Assistant) (t : Topic) (content : string)
| CAbortCompletion (id : string)
| CPauseTrace (topicId : string)
| CScrollToBottom.

Record World := {
  hooks : Hooks;
  refs : Refs;
  db : gmap string string;
  calls : list Call;
  rendered : Render
}.

(** *** The monad of component code: state passing over [World] *)

Definition M (A : Type) : Type := World -> A * World.

#[global] Instance M_ret : MRet M := fun _ a w => (a, w).
#[global] Instance M_bind : MBind M :=
  fun _ _ f m w => let '(a, w') := m w in f a w'.

Definition exec {A} (m : M A) (w : World) : World := snd (m w).

Definition skip : M unit := mret tt.

Definition call (c : Call) : M unit := fun w =>
  (tt, {| hooks := hooks w; refs := refs w; db := db w;
          calls := calls w ++ [c]; rendered := rendered w |}).

Definition modify_hooks (f : Hooks -> Hooks) : M unit := fun w =>
  (tt, {| hooks := f (hooks w); refs := refs w; db := db w;
          calls := calls w; rendered := rendered w |}).

Definition modify_refs (f : Refs -> Refs) : M unit := fun w =>
  (tt, {| hooks := hooks w; refs := f (refs w); db := db w;
          calls := calls w; rendered := rendered w |}).

Definition read_refs {A} (f : Refs -> A) : M A := fun w => (f (refs w), w).

(** *** Collaborator calls *)

Definition logger (lvl : Level) (msg : string) : M unit := call (CLog lvl msg).

(** [db.settings.get({ id })]: the [value] of the record, if there is one. *)
Definition db_settings_get (id : string) : M (option string) := fun w =>
  (db w !! id,
   {| hooks := hooks w; refs := refs w; db := db w;
      calls := calls w ++ [CDbGet id]; rendered := rendered w |}).

(** [db.settings.put({ id, value })]. *)
Definition db_settings_put (id value : string) : M unit := fun w =>
  (tt, {| hooks := hooks w; refs := refs w; db := <[id := value]> (db w);
          calls := calls w ++ [CDbPut id value]; rendered := rendered w |}).

Definition getDefaultTranslateAssistant (l : TranslateLanguage) (text : string)
  : M Assistant :=
  call (CGetDefaultTranslateAssistant l text) ;;
  mret (defaultTranslateAssistant l text).

Definition getDefaultTopic (assistantId : string) : M Topic :=
  call (CGetDefaultTopic assistantId) ;; mret (defaultTopic assistantId).

Definition processMessages (a : Assistant) (t : Topic) (content : string)
  : M unit := call (CProcessMessages a t content).

Definition abortCompletion (id : string) : M unit := call (CAbortCompletion id).
Definition pauseTrace (topicId : string) : M unit := call (CPauseTrace topicId).
Definition scrollToBottom : M unit := call CScrollToBottom.

(** *** React setters and ref assignments *)

Definition with_targetLanguage (l : TranslateLanguage) (h : Hooks) : Hooks :=
  {| targetLanguage := l; error := error h; showOriginal := showOriginal h;
     status := status h; contentToCopy := contentToCopy h;
     initialized := initialized h |}.

Definition with_error (s : string) (h : Hooks) : Hooks :=
  {| targetLanguage := targetLanguage h; error := s;
     showOriginal := showOriginal h; status := status h;
     contentToCopy := contentToCopy h; initialized := initialized h |}.

Definition with_showOriginal (b : bool) (h : Hooks) : Hooks :=
  {| targetLanguage := targetLanguage h; error := error h;
     showOriginal := b; status := status h;
     contentToCopy := contentToCopy h; initialized := initialized h |}.

Definition with_status (st : ControllerStatus) (h : Hooks) : Hooks :=
  {| targetLanguage := targetLanguage h; error := error h;
     showOriginal := showOriginal h; status := st;
     contentToCopy := contentToCopy h; initialized := initialized h |}.

Definition with_contentToCopy (s : string) (h : Hooks) : Hooks :=
  {| targetLanguage := targetLanguage h; error := error h;
     showOriginal := showOriginal h; status := status h;
     contentToCopy := s; initialized := initialized h |}.

Definition with_initialized (b : bool) (h : Hooks) : Hooks :=
  {| targetLanguage := targetLanguage h; error := error h;
     showOriginal := showOriginal h; status := status h;
     contentToCopy := contentToCopy h; initialized := b |}.

Definition with_assistantRef (a : option Assistant) (r : Refs) : Refs :=
  {| assistantRef := a; topicRef := topicRef r; askId := askId r;
     targetLangRef := targetLangRef r |}.

Definition with_topicRef (t : option Topic) (r : Refs) : Refs :=
  {| assistantRef := assistantRef r; topicRef := t; askId := askId r;
     targetLangRef := targetLangRef r |}.

Definition with_askId (id : string) (r : Refs) : Refs :=
  {| assistantRef := assistantRef r; topicRef := topicRef r; askId := id;
     targetLangRef := targetLangRef r |}.

Definition with_targetLangRef (l : TranslateLanguage) (r : Refs) : Refs :=
  {| assistantRef := assistantRef r; topicRef := topicRef r;
     askId := askId r; targetLangRef := l |}.

(** A React setter: the call is made and the cell takes the value. *)
Definition setTargetLanguage (l : TranslateLanguage) : M unit :=
  call (CSetTargetLanguage l) ;; modify_hooks (with_targetLanguage l).

Definition setError (s : string) : M unit :=
  call (CSetError s) ;; modify_hooks (with_error s).

Definition setShowOriginal (b : bool) : M unit :=
  call (CSetShowOriginal b) ;; modify_hooks (with_showOriginal b).

Definition setStatus (st : ControllerStatus) : M unit :=
  call (CSetStatus st) ;; modify_hooks (with_status st).

Definition setContentToCopy (s : string) : M unit :=
  call (CSetContentToCopy s) ;; modify_hooks (with_contentToCopy s).

Definition setInitialized (b : bool) : M unit :=
  call (CSetInitialized b) ;; modify_hooks (with_initialized b).

(** An assignment to [ref.current]. *)
Definition set_assistantRef (a : option Assistant) : M unit :=
  modify_refs (with_assistantRef a).

Definition set_topicRef (t : option Topic) : M unit :=
  modify_refs (with_topicRef t).

Definition set_askId (id : string) : M unit := modify_refs (with_askId id).

Definition set_targetLangRef (l : TranslateLanguage) : M unit :=
  modify_refs (with_targetLangRef l).

(** *** The component's functions, in source order *)

(** The initializer of [useState<TranslateLanguage>]: the language to
    start from, and the calls it makes. *)
Definition initialTargetLanguage (e : Env) : TranslateLanguage * list Call :=
  let lang := getLanguageByLangcode e (language e) in
  if decide (lang <> UNKNOWN) then (lang, [])
  else (zhCN,
        [CLog warn "[initialize targetLanguage] Unexpected UNKNOWN. Fallback to zh-CN"]).

Definition updateTargetLanguage (r : Render) : M unit :=
  if negb (isLanguagesLoaded (env r)) then
    logger silly "[updateTargetLanguage] Languages are not loaded. Skip."
  else
    savedTargetLang ← db_settings_get "translate:target:language";
    match savedTargetLang with
    | Some value =>
        if truthy value then
          let targetLang := getLanguageByLangcode (env r) value in
          setTargetLanguage targetLang ;;
          set_targetLangRef targetLang
        else skip
    | None => skip
    end.

Definition initialize (r : Render) : M unit :=
  if initialized (seen r) then
    logger silly "[initialize] Already initialized."
  else if negb (isLanguagesLoaded (env r)) then
    logger silly "[initialize] Languages not loaded. Skip initialization."
  else
    match selectedText (action (env r)) with
    | None => logger error_level "[initialize] No selected text."
    | Some text =>
        logger silly "[initialize] Start initialization." ;;
        updateTargetLanguage r ;;
        logger silly "[initialize] updateTargetLanguage completed." ;;
        lang ← read_refs targetLangRef;
        currentAssistant ← getDefaultTranslateAssistant lang text;
        set_assistantRef (Some currentAssistant) ;;
        t ← getDefaultTopic (assistant_id currentAssistant);
        set_topicRef (Some t) ;;
        setInitialized true
    end.

(** The four callbacks [fetchResult] hands to [processMessages]. *)
Definition setAskId (id : string) : M unit := set_askId id.
Definition onStream : M unit := setStatus streaming ;; scrollToBottom.
Definition onFinish (content : string) : M unit :=
  setStatus finished ;; setContentToCopy content.
Definition onError (message : string) : M unit :=
  setStatus finished ;; setError message.

Definition fetchResult (r : Render) : M unit :=
  a ← read_refs assistantRef;
  t ← read_refs topicRef;
  match a, t, selectedText (action (env r)) with
  | Some _, Some topic, Some text =>
      if truthy text && initialized (seen r) then
        assistant ← getDefaultTranslateAssistant (targetLanguage (seen r)) text;
        set_assistantRef (Some assistant) ;;
        logger debug "process once" ;;
        processMessages assistant topic (assistant_content assistant)
      else skip
  | _, _, _ => skip
  end.

Definition currentAssistantMessage (r : Render) : option Message :=
  let assistantMessages :=
    filter (fun message => msg_role message = assistant) (allMessages r) in
  if decide (length assistantMessages = 0) then None
  else assistantMessages !! (length assistantMessages - 1).

(** The status-sync effect; its argument is [currentAssistantMessage?.status]. *)
Definition syncStatus (st : option string) : M unit :=
  match st with
  | Some s =>
      if String.eqb s AssistantMessageStatus.PROCESSING
         || String.eqb s AssistantMessageStatus.PENDING
         || String.eqb s AssistantMessageStatus.SEARCHING
      then setStatus streaming
      else if String.eqb s AssistantMessageStatus.PAUSED
              || String.eqb s AssistantMessageStatus.ERROR
              || String.eqb s AssistantMessageStatus.SUCCESS
      then setStatus finished
      else logger warn "Unexpected assistant message status:"
  | None => skip
  end.

Definition handleChangeLanguage (r : Render) (newTargetLanguage : TranslateLanguage)
  : M unit :=
  if negb (initialized (seen r)) then skip
  else
    setTargetLanguage newTargetLanguage ;;
    set_targetLangRef newTargetLanguage ;;
    db_settings_put "translate:target:language" (langCode newTargetLanguage).

Definition handlePause : M unit :=
  logger silly "Try to pause: " ;;
  id ← read_refs askId;
  (if truthy id then abortCompletion id else skip) ;;
  t ← read_refs topicRef;
  match t with
  | Some topic =>
      if truthy (topic_id topic) then pauseTrace (topic_id topic) else skip
  | None => skip
  end.

Definition handleRegenerate (r : Render) : M unit :=
  setContentToCopy "" ;;
  fetchResult r.

(** [onClick={() => setShowOriginal(!showOriginal)}]. *)
Definition toggleOriginal (r : Render) : M unit :=
  setShowOriginal (negb (showOriginal (seen r))).

(** [{error && <ErrorMsg>{error}</ErrorMsg>}]: the banner a render shows. *)
Definition errorBanner (r : Render) : option string :=
  if truthy (error (seen r)) then Some (error (seen r)) else None.

(** *** Renders and effects *)

(** [topicRef.current?.id || ''], read while rendering. *)
Definition currentTopicId (rf : Refs) : string :=
  match topicRef rf with
  | Some topic => topic_id topic
  | None => ""
  end.

Definition render (e : Env) (w : World) : Render :=
  {| env := e; seen := hooks w;
     allMessages := useTopicMessages e (currentTopicId (refs w)) |}.

(** The dependency lists of the source.  [initialize] lists
    [updateTargetLanguage], a callback that is itself renewed on its own
    dependencies; [fetchResult] lists the [action] object and the
    [scrollToBottom] function, compared by reference. *)
Definition updateTargetLanguage_deps (r : Render) : nat * bool :=
  (getLanguageByLangcode_ref (env r), isLanguagesLoaded (env r)).

Definition initialize_deps (r : Render) : option string * bool * bool * (nat * bool) :=
  (selectedText (action (env r)), initialized (seen r),
   isLanguagesLoaded (env r), updateTargetLanguage_deps r).

Definition fetchResult_deps (r : Render) : nat * TranslateLanguage * nat * bool :=
  (action_ref (action (env r)), targetLanguage (seen r),
   scrollToBottom_ref (env r), initialized (seen r)).

Definition syncStatus_deps (r : Render) : option string :=
  msg_status <$> currentAssistantMessage r.

(** [useEffect(body, deps)]: on the first render [prev] is [None] and the
    body runs; later it runs when the dependencies differ. *)
Definition useEffect {D} `{EqDecision D} (prev : option D) (cur : D) (body : M unit)
  : M unit :=
  match prev with
  | Some d => if decide (d = cur) then skip else body
  | None => body
  end.

(** The three effects of the component, in source order. *)
Definition effects (prev : option Render) (r : Render) : M unit :=
  useEffect (initialize_deps <$> prev) (initialize_deps r) (initialize r) ;;
  useEffect (fetchResult_deps <$> prev) (fetchResult_deps r) (fetchResult r) ;;
  useEffect (syncStatus_deps <$> prev) (syncStatus_deps r)
            (syncStatus (syncStatus_deps r)).

Definition set_rendered (r : Render) : M unit := fun w =>
  (tt, {| hooks := hooks w; refs := refs w; db := db w;
          calls := calls w; rendered := r |}).

(** The first render: the state cells get their initial values, then the
    effects run. *)
Definition mount (e : Env) (db0 : gmap string string) : World :=
  let '(lang, log) := initialTargetLanguage e in
  let h := {| targetLanguage := lang; error := ""; showOriginal := false;
              status := preparing; contentToCopy := ""; initialized := false |} in
  let rf := {| assistantRef := None; topicRef := None; askId := "";
               targetLangRef := lang |} in
  let r := {| env := e; seen := h; allMessages := useTopicMessages e "" |} in
  exec (effects None r)
       {| hooks := h; refs := rf; db := db0; calls := log; rendered := r |}.

(** A later render, with what the outside provides then. *)
Definition rerender (e : Env) : M unit := fun w =>
  let prev := rendered w in
  let r := render e w in
  (set_rendered r ;; effects (Some prev) r) w.

(** *** What can happen to a mounted component *)

Inductive Op :=
| Rerender (e : Env)
| ChangeLanguage (newTargetLanguage : TranslateLanguage)
| Pause
| Regenerate
| ToggleOriginal
| SetAskId (id : string)
| OnStream
| OnFinish (content : string)
| OnError (message : string).

(** User actions run the handlers of the last render; the last four
    operations are the completion service calling back. *)
Definition step (o : Op) : M unit := fun w =>
  match o with
  | Rerender e => rerender e w
  | ChangeLanguage l => handleChangeLanguage (rendered w) l w
  | Pause => handlePause w
  | Regenerate => handleRegenerate (rendered w) w
  | ToggleOriginal => toggleOriginal (rendered w) w
  | SetAskId id => setAskId id w
  | OnStream => onStream w
  | OnFinish content => onFinish content w
  | OnError message => onError message w
  end.

Definition run (ops : list Op) (w : World) : World :=
  foldl (fun w o => exec (step o) w) w ops.

(** *** Counting calls *)

Definition is_fetch (c : Call) : bool :=
  match c with CProcessMessages _ _ _ => true | _ => false end.

Definition is_topic_creation (c : Call) : bool :=
  match c with CGetDefaultTopic _ => true | _ => false end.

Definition is_assistant_creation (c : Call) : bool :=
  match c with CGetDefaultTranslateAssistant _ _ => true | _ => false end.

Definition is_abort (c : Call) : bool :=
  match c with CAbortCompletion _ => true | _ => false end.

Definition is_pauseTrace (c : Call) : bool :=
  match c with CPauseTrace _ => true | _ => false end.

Definition count (p : Call -> bool) (cs : list Call) : nat :=
  length (List.filter p cs).

Definition is_init_mark (c : Call) : bool :=
  match c with CSetInitialized true => true | _ => false end.

(** [keeps proj m]: running [m] leaves the part [proj] of the world as it
    was. *)
Definition keeps {X A} (proj : World -> X) (m : M A) : Prop :=
  forall w, proj (snd (m w)) = proj w.

(** What holds of every world a mounted component reaches through the
    operations of [Op], the calls to [initialize] taken one after the
    other: closures that saw [initialized] are not ahead of the state;
    before
    initialization there is neither assistant nor topic and nothing was
    submitted; after it both are there, the topic being the one created
    then. *)
Definition Inv (w : World) : Prop :=
  (initialized (seen (rendered w)) = true -> initialized (hooks w) = true)
  /\ (if initialized (hooks w)
      then is_Some (assistantRef (refs w))
           /\ (exists assistantId, topicRef (refs w) = Some (defaultTopic assistantId))
           /\ count is_topic_creation (calls w) = 1
           /\ count is_init_mark (calls w) = 1
      else assistantRef (refs w) = None
           /\ topicRef (refs w) = None
           /\ count is_fetch (calls w) = 0
           /\ count is_topic_creation (calls w) = 0
           /\ count is_init_mark (calls w) = 0).

(** The parts of a world [Inv] looks at. *)
Definition facts (w : World)
  : bool * bool * option Assistant * option Topic * nat * nat * nat :=
  (initialized (seen (rendered w)), initialized (hooks w),
   assistantRef (refs w), topicRef (refs w),
   count is_fetch (calls w), count is_topic_creation (calls w),
   count is_init_mark (calls w)).

(** The calls made by running [m] from [w]. *)
Definition emitted {A} (m : M A) (w : World) : list Call :=
  drop (length (calls w)) (calls (exec m w)).

(** [appends m]: running [m] only adds calls at the end of the record. *)
Definition appends {A} (m : M A) : Prop :=
  forall w, calls (exec m w) = (calls w ++ emitted m w)%list.

(** The world after the language step of a completing initialization. *)
Definition afterLanguageStep (r : Render) (w : World) : World :=
  exec (updateTargetLanguage r)
       (exec (logger silly "[initialize] Start initialization.") w).


Definition is_onError (o : Op) : bool :=
  match o with OnError _ => true | _ => false end.

(** *** The view *)

Definition isPreparing (r : Render) : bool :=
  match status (seen r) with preparing => true | _ => false end.

Definition isStreaming (r : Render) : bool :=
  match status (seen r) with streaming => true | _ => false end.

(** What the JSX of a render shows: the language select, the original
    text when it is unfolded, the result area, the error banner and the
    props of the footer. *)
Record View := {
  select_value : string;
  select_disabled : bool;
  originalContent : option (option string);
  spinner : bool;
  messageContent : option Message;
  errorMsg : option string;
  footer_loading : bool;
  footer_content : string
}.

Definition view (r : Render) : View :=
  {| select_value := langCode (targetLanguage (seen r));
     select_disabled := isStreaming r;
     originalContent :=
       if showOriginal (seen r) then Some (selectedText (action (env r))) else None;
     spinner := isPreparing r;
     messageContent :=
       if negb (isPreparing r) then currentAssistantMessage r else None;
     errorMsg := errorBanner r;
     footer_loading := isStreaming r;
     footer_content := contentToCopy (seen r) |}.

(** *** Further notions used in statements *)

(** [preserves P m]: running [m] from a world with [P] ends in one. *)
Definition preserves {A} (P : World -> Prop) (m : M A) : Prop :=
  forall w, P w -> P (snd (m w)).

(** The mirror ref holds the language of the state cell. *)
Definition Lock (w : World) : Prop :=
  targetLangRef (refs w) = targetLanguage (hooks w).

(** Every submission recorded went to the topic held, with the prompt of
    an assistant built for a non-empty text. *)
Definition Submitted (w : World) : Prop :=
  forall a t c, In (CProcessMessages a t c) (calls w) ->
    topicRef (refs w) = Some t /\ c = assistant_content a
    /\ exists l text, a = defaultTranslateAssistant l text /\ text <> "".

(** A render in which [initialize] cannot complete. *)
Definition notReady (e : Env) : Prop :=
  isLanguagesLoaded e = false \/ selectedText (action e) = None.

(** The environments of the renders among some operations. *)
Definition rendersOf (ops : list Op) : list Env :=
  flat_map (fun o => match o with Rerender e => [e] | _ => [] end) ops.

(** The world of the first render, before its effects run. *)
Definition initialWorld (e : Env) (db0 : gmap string string) : World :=
  let '(lang, log) := initialTargetLanguage e in
  let h := {| targetLanguage := lang; error := ""; showOriginal := false;
              status := preparing; contentToCopy := ""; initialized := false |} in
  {| hooks := h;
     refs := {| assistantRef := None; topicRef := None; askId := "";
                targetLangRef := lang |};
     db := db0; calls := log;
     rendered := {| env := e; seen := h; allMessages := useTopicMessages e "" |} |}.


Definition is_scroll (c : Call) : bool :=
  match c with CScrollToBottom => true | _ => false end.


Definition is_onStream (o : Op) : bool :=
  match o with OnStream => true | _ => false end.

Definition is_setAskId (o : Op) : bool :=
  match o with SetAskId _ => true | _ => false end.

Definition writesContent (o : Op) : bool :=
  match o with OnFinish _ | Regenerate => true | _ => false end.

(** *** The awaits of [initialize] *)

(** [updateTargetLanguage] up to its [await]: [None] when it returns at
    its guard, [Some saved] when it is suspended on the settings read,
    [saved] being what the read delivers (the record as it is when the
    read is issued). *)
Definition updateTargetLanguage_begin (r : Render) : M (option (option string)) :=
  if negb (isLanguagesLoaded (env r)) then
    logger silly "[updateTargetLanguage] Languages are not loaded. Skip." ;;
    mret None
  else
    savedTargetLang ← db_settings_get "translate:target:language";
    mret (Some savedTargetLang).

(** [updateTargetLanguage] after its [await]. *)
Definition updateTargetLanguage_resume (r : Render) (savedTargetLang : option string)
  : M unit :=
  match savedTargetLang with
  | Some value =>
      if truthy value then
        let targetLang := getLanguageByLangcode (env r) value in
        setTargetLanguage targetLang ;;
        set_targetLangRef targetLang
      else skip
  | None => skip
  end.

(** A call to [initialize] suspended at [await updateTargetLanguage()]:
    its closure, the selected text it found, and where the language step
    stands. *)
Record Suspended := {
  s_render : Render;
  s_text : string;
  s_read : option (option string)
}.

(** [initialize] up to its [await]; [None] when the call returned at a
    guard. *)
Definition initialize_begin (r : Render) : M (option Suspended) :=
  if initialized (seen r) then
    logger silly "[initialize] Already initialized." ;; mret None
  else if negb (isLanguagesLoaded (env r)) then
    logger silly "[initialize] Languages not loaded. Skip initialization." ;;
    mret None
  else
    match selectedText (action (env r)) with
    | None => logger error_level "[initialize] No selected text." ;; mret None
    | Some text =>
        logger silly "[initialize] Start initialization." ;;
        read ← updateTargetLanguage_begin r;
        mret (Some {| s_render := r; s_text := text; s_read := read |})
    end.

(** [initialize] after its [await]. *)
Definition initialize_resume (s : Suspended) : M unit :=
  match s_read s with
  | Some savedTargetLang => updateTargetLanguage_resume (s_render s) savedTargetLang
  | None => skip
  end ;;
  logger silly "[initialize] updateTargetLanguage completed." ;;
  lang ← read_refs targetLangRef;
  currentAssistant ← getDefaultTranslateAssistant lang (s_text s);
  set_assistantRef (Some currentAssistant) ;;
  t ← getDefaultTopic (assistant_id currentAssistant);
  set_topicRef (Some t) ;;
  setInitialized true.

(** The world together with the calls to [initialize] that are suspended,
    oldest first. *)
Record Live := {
  world : World;
  suspended : list Suspended
}.

(** The three effects, the first one as far as its await. *)
Definition effects_live (prev : option Render) (r : Render) : M (option Suspended) :=
  s ← match initialize_deps <$> prev with
      | Some d => if decide (d = initialize_deps r) then mret None
                  else initialize_begin r
      | None => initialize_begin r
      end;
  useEffect (fetchResult_deps <$> prev) (fetchResult_deps r) (fetchResult r) ;;
  useEffect (syncStatus_deps <$> prev) (syncStatus_deps r)
            (syncStatus (syncStatus_deps r)) ;;
  mret s.

Definition mount_live (e : Env) (db0 : gmap string string) : Live :=
  let w0 := initialWorld e db0 in
  let '(s, w) := effects_live None (rendered w0) w0 in
  {| world := w; suspended := option_list s |}.

Definition rerender_live (e : Env) (l : Live) : Live :=
  let r := render e (world l) in
  let '(s, w) := effects_live (Some (rendered (world l))) r
                   (exec (set_rendered r) (world l)) in
  {| world := w; suspended := suspended l ++ option_list s |}.

(** What can happen to a mounted component, the resumption of a
    suspended [initialize] included. *)
Inductive Event :=
| Does (o : Op)
| SettingsRead.

Definition step_live (ev : Event) (l : Live) : Live :=
  match ev with
  | Does (Rerender e) => rerender_live e l
  | Does o => {| world := exec (step o) (world l); suspended := suspended l |}
  | SettingsRead =>
      match suspended l with
      | s :: rest => {| world := exec (initialize_resume s) (world l);
                        suspended := rest |}
      | [] => l
      end
  end.

Definition run_live (evs : list Event) (l : Live) : Live :=
  foldl (fun l ev => step_live ev l) l evs.

(** What holds of the world whatever the order in which events and
    resumptions come: closures that saw [initialized] are not ahead of the
    state, and once the state is marked an assistant is held and a topic
    made by [getDefaultTopic]. *)
Definition Held (w : World) : Prop :=
  (initialized (seen (rendered w)) = true -> initialized (hooks w) = true)
  /\ (initialized (hooks w) = true ->
      is_Some (assistantRef (refs w))
      /\ exists assistantId, topicRef (refs w) = Some (defaultTopic assistantId)).

End Controller.

(** ** A concrete catalog and assistant service, for examples *)

Module Demo.

Record Lang := { lang_value : string; lang_code : string }.

#[global] Instance Lang_eq_dec : EqDecision Lang.
Proof. solve_decision. Defined.

Record DemoAssistant := { da_id : string; da_content : string }.
Record DemoTopic := { dt_id : string; dt_assistantId : string }.

Definition unknown : Lang := {| lang_value := "Unknown"; lang_code := "unknown" |}.
Definition chinese : Lang := {| lang_value := "Chinese (Simplified)"; lang_code := "zh-cn" |}.
Definition english : Lang := {| lang_value := "English"; lang_code := "en-us" |}.
Definition french : Lang := {| lang_value := "French"; lang_code := "fr-fr" |}.

#[global] Instance collaborators : Collaborators := {|
  TranslateLanguage := Lang;
  langCode := lang_code;
  UNKNOWN := unknown;
  zhCN := chinese;
  Assistant := DemoAssistant;
  assistant_id := da_id;
  assistant_content := da_content;
  Topic := DemoTopic;
  topic_id := dt_id;
  defaultTranslateAssistant := fun l text =>
    {| da_id := "default";
       da_content := "Translate to " ++ lang_value l ++ ": " ++ text |};
  defaultTopic := fun aid => {| dt_id := "topic-1"; dt_assistantId := aid |}
|}.

(** A catalog with three languages; anything else resolves to [unknown]. *)
Definition lookup (code : string) : Lang :=
  if String.eqb code "zh-cn" then chinese
  else if String.eqb code "en-us" then english
  else if String.eqb code "fr-fr" then french
  else unknown.

Definition env0 (text : option string) (loaded : bool) (msgs : list Message) : Env := {|
  action := {| action_ref := 1; selectedText := text |};
  scrollToBottom_ref := 2;
  language := "en-us";
  getLanguageByLangcode := lookup;
  getLanguageByLangcode_ref := 3;
  isLanguagesLoaded := loaded;
  useTopicMessages := fun id => if String.eqb id "topic-1" then msgs else []
|}.

(** The example component: a selection "hello", the catalog loaded. *)
Definition hello : Env := env0 (Some "hello") true [].

Definition helloMounted : World := mount hello ∅.

(** The component after mount and the render that initialization causes. *)
Definition helloReady : World := run [Rerender hello] helloMounted.

(** The same with an empty selection. *)
Definition blank : Env := env0 (Some "") true [].

Definition blankReady : World := run [Rerender blank] (mount blank ∅).

Definition answering : list Message :=
  [ {| msg_id := "m1"; msg_role := user; msg_status := "success" |};
    {| msg_id := "m2"; msg_role := assistant; msg_status := "success" |};
    {| msg_id := "m3"; msg_role := user; msg_status := "success" |};
    {| msg_id := "m4"; msg_role := assistant; msg_status := "processing" |} ].



(** The ready component with a change to French made and not yet
    rendered. *)
Definition frenchPending : World := run [ChangeLanguage french] helloReady.

(** No selected text, and the catalog not loaded. *)
Definition nothingYet : Env := env0 None false [].

End Demo.

(** ** Properties *)

Section Properties.
Context `{C : Collaborators}.
Local Open Scope list_scope.

(** *** Running monadic code *)

Lemma run_bind {A B} (m : M A) (f : A -> M B) (w : World) :
  (m ≫= f) w = f (fst (m w)) (snd (m w)).
Proof.
  unfold mbind, M_bind. destruct (m w); reflexivity.
Qed.

Lemma exec_bind {A B} (m : M A) (f : A -> M B) (w : World) :
  exec (m ≫= f) w = exec (f (fst (m w))) (exec m w).
Proof.
  unfold exec. rewrite run_bind. reflexivity.
Qed.

Lemma exec_seq (m k : M unit) (w : World) :
  exec (m ;; k) w = exec k (exec m w).
Proof. apply exec_bind. Qed.

Lemma keeps_ret {X A} (proj : World -> X) (a : A) : keeps proj (mret a).
Proof. intros w. reflexivity. Qed.

Lemma keeps_bind {X A B} (proj : World -> X) (m : M A) (f : A -> M B) :
  keeps proj m -> (forall a, keeps proj (f a)) -> keeps proj (m ≫= f).
Proof.
  intros Hm Hf w. rewrite run_bind. rewrite Hf. apply Hm.
Qed.

Lemma keeps_exec {X A} (proj : World -> X) (m : M A) (w : World) :
  keeps proj m -> proj (exec m w) = proj w.
Proof. intros H. apply H. Qed.

Lemma count_snoc (p : Call -> bool) (cs : list Call) (c : Call) :
  count p (cs ++ [c]) = count p cs + (if p c then 1 else 0).
Proof.
  unfold count. rewrite List.filter_app, length_app. simpl.
  destruct (p c); reflexivity.
Qed.

Lemma count_app (p : Call -> bool) (cs ds : list Call) :
  count p (cs ++ ds) = count p cs + count p ds.
Proof.
  unfold count. rewrite List.filter_app, length_app. reflexivity.
Qed.

Lemma appends_intro {A} (m : M A) :
  (forall w, exists l, calls (exec m w) = calls w ++ l) -> appends m.
Proof.
  intros H w. destruct (H w) as [l Hl]. unfold emitted.
  rewrite Hl, drop_app_length. reflexivity.
Qed.

Lemma appends_ret {A} (a : A) : appends (mret a).
Proof. apply appends_intro. intros w. exists []. cbn. rewrite app_nil_r. reflexivity. Qed.

Lemma emitted_exact {A} (m : M A) (w : World) (l : list Call) :
  calls (exec m w) = calls w ++ l -> emitted m w = l.
Proof. intros H. unfold emitted. rewrite H. apply drop_app_length. Qed.

Lemma emitted_bind {A B} (m : M A) (f : A -> M B) (w : World) :
  appends m -> (forall a, appends (f a)) ->
  emitted (m ≫= f) w = emitted m w ++ emitted (f (fst (m w))) (exec m w).
Proof.
  intros Hm Hf. apply emitted_exact.
  rewrite exec_bind, Hf, Hm, app_assoc. reflexivity.
Qed.

Lemma appends_bind {A B} (m : M A) (f : A -> M B) :
  appends m -> (forall a, appends (f a)) -> appends (m ≫= f).
Proof.
  intros Hm Hf w. rewrite (emitted_bind m f w Hm Hf).
  rewrite exec_bind, Hf, Hm, app_assoc. reflexivity.
Qed.

Lemma count_emitted {A} (p : Call -> bool) (m : M A) (w : World) :
  appends m ->
  count p (calls (exec m w)) = count p (calls w) + count p (emitted m w).
Proof. intros Hm. rewrite Hm. apply count_app. Qed.

Ltac appends_prim :=
  apply appends_intro;
  let w := fresh "w" in
  intros w; cbn;
  first [ exists []; rewrite app_nil_r; reflexivity | eexists [_]; reflexivity ].

Ltac appends_step :=
  lazymatch goal with
  | |- appends (mret _) => apply appends_ret
  | |- appends (mbind _ _) => apply appends_bind; [ | intros ? ]
  | |- appends (call _) => appends_prim
  | |- appends (modify_hooks _) => appends_prim
  | |- appends (modify_refs _) => appends_prim
  | |- appends (read_refs _) => appends_prim
  | |- appends (db_settings_get _) => appends_prim
  | |- appends (db_settings_put _ _) => appends_prim
  | |- appends (if ?b then _ else _) => destruct b
  | |- appends (match ?x with _ => _ end) => destruct x
  | |- forall _, _ => intros ?
  end.

(** Opens the body of every function of the component, one layer. *)
Ltac open_code :=
  unfold effects, useEffect, handleRegenerate, handleChangeLanguage, handlePause,
    toggleOriginal, fetchResult, initialize, updateTargetLanguage, syncStatus,
    setAskId, onStream, onFinish, onError,
    getDefaultTranslateAssistant, getDefaultTopic, processMessages,
    abortCompletion, pauseTrace, scrollToBottom, logger,
    setTargetLanguage, setError, setShowOriginal, setStatus, setContentToCopy,
    setInitialized, set_assistantRef, set_topicRef, set_askId,
    set_targetLangRef, skip.

(** Evaluates straight-line code down to an explicit world. *)
Ltac code :=
  cbv beta iota zeta delta
    [exec skip call modify_hooks modify_refs read_refs logger
     db_settings_get db_settings_put getDefaultTranslateAssistant
     getDefaultTopic processMessages abortCompletion pauseTrace scrollToBottom
     setTargetLanguage setError setShowOriginal setStatus setContentToCopy
     setInitialized set_assistantRef set_topicRef set_askId set_targetLangRef
     updateTargetLanguage initialize setAskId onStream onFinish onError
     fetchResult syncStatus handleChangeLanguage handlePause handleRegenerate
     toggleOriginal set_rendered
     mbind mret M_bind M_ret fst snd];
  cbn [hooks refs db calls rendered
       targetLanguage error showOriginal status contentToCopy initialized
       assistantRef topicRef askId targetLangRef].

(** A primitive keeps a part of the world when the part does not look at
    what the primitive writes. *)
Ltac keeps_prim :=
  let w := fresh "w" in
  intros w; try unfold facts; cbn -[count]; rewrite ?count_snoc;
  cbn -[count]; rewrite ?Nat.add_0_r; reflexivity.

Ltac keeps_step :=
  lazymatch goal with
  | |- keeps _ (mret _) => apply keeps_ret
  | |- keeps _ (mbind _ _) => apply keeps_bind; [ | intros ? ]
  | |- keeps _ (call _) => keeps_prim
  | |- keeps _ (modify_hooks _) => keeps_prim
  | |- keeps _ (modify_refs _) => keeps_prim
  | |- keeps _ (read_refs _) => keeps_prim
  | |- keeps _ (db_settings_get _) => keeps_prim
  | |- keeps _ (db_settings_put _ _) => keeps_prim
  | |- keeps _ (if ?b then _ else _) => destruct b
  | |- keeps _ (match ?x with _ => _ end) => destruct x
  end.

Ltac keeps_code := open_code; repeat keeps_step.
Ltac appends_code := open_code; repeat appends_step.

Lemma truthy_true (s : string) : truthy s = true <-> s <> "".
Proof.
  unfold truthy. rewrite negb_true_iff. apply String.eqb_neq.
Qed.

(** The memoised [currentAssistantMessage] is the last assistant message. *)
Lemma currentAssistantMessage_last (r : Render) :
  currentAssistantMessage r =
  last (filter (fun message => msg_role message = assistant) (allMessages r)).
Proof.
  unfold currentAssistantMessage.
  generalize (filter (fun message => msg_role message = assistant) (allMessages r)).
  intros l. rewrite last_lookup. case_decide as Hl.
  - destruct l; [reflexivity | discriminate].
  - f_equal. destruct l; simpl in *; lia.
Qed.

Lemma filter_nil_none {A} (P : A -> Prop) `{forall x, Decision (P x)} (l : list A) :
  filter P l = [] <-> forall x, x ∈ l -> ~ P x.
Proof.
  split.
  - intros Hnil x Hx HP. exact (filter_nil_not_elem_of P l x Hnil HP Hx).
  - induction l as [|a l IH]; intros Hall; [reflexivity|].
    rewrite filter_cons. destruct (decide (P a)) as [Ha|Ha].
    + exfalso. apply (Hall a); [left | exact Ha].
    + apply IH. intros x Hx. apply Hall. right. exact Hx.
Qed.

Lemma currentAssistantMessage_None (r : Render) :
  currentAssistantMessage r = None <->
  forall message, message ∈ allMessages r -> msg_role message <> assistant.
Proof.
  rewrite currentAssistantMessage_last, last_None. apply filter_nil_none.
Qed.

(** No code of the component other than a render replaces the closures
    in use. *)
Lemma effects_rendered (prev : option Render) (r : Render) :
  keeps rendered (effects prev r).
Proof. keeps_code. Qed.

(** C7: the initial target language is the catalog entry of the interface
    language when the lookup resolves, and otherwise the constant
    [LanguagesEnum.zhCN] with one warning logged; it is the value the
    first render and the mirror ref start from. *)
Theorem initialTargetLanguage_fallback (e : Env) (db0 : gmap string string) :
  (getLanguageByLangcode e (language e) = UNKNOWN ->
   initialTargetLanguage e =
   (zhCN, [CLog warn "[initialize targetLanguage] Unexpected UNKNOWN. Fallback to zh-CN"]))
  /\ (getLanguageByLangcode e (language e) <> UNKNOWN ->
      initialTargetLanguage e = (getLanguageByLangcode e (language e), []))
  /\ targetLanguage (seen (rendered (mount e db0))) = fst (initialTargetLanguage e).
Proof.
  split; [|split].
  - intros Hu. unfold initialTargetLanguage. rewrite Hu.
    case_decide; [congruence | reflexivity].
  - intros Hk. unfold initialTargetLanguage.
    case_decide; [reflexivity | contradiction].
  - unfold mount. destruct (initialTargetLanguage e) as [lang log].
    rewrite (keeps_exec rendered _ _ (effects_rendered None _)). reflexivity.
Qed.

(** C1: the status-sync effect reads the status of the last message of
    role assistant among the messages of the topic held at render time;
    pending, processing and searching set the status to streaming; paused,
    error and success set it to finished; with no assistant message
    nothing happens; any other status value leaves the state as it is and
    logs one warning.  The effect is a total function: it has a result on
    every input. *)
Theorem syncStatus_mapping (r : Render) (w : World) :
  let st := syncStatus_deps r in
  let w' := exec (syncStatus st) w in
  (forall e v, allMessages (render e v) = useTopicMessages e (currentTopicId (refs v)))
  /\ st = msg_status <$>
          last (filter (fun message => msg_role message = assistant) (allMessages r))
  /\ (forall s, st = Some s ->
      s = AssistantMessageStatus.PENDING \/ s = AssistantMessageStatus.PROCESSING
      \/ s = AssistantMessageStatus.SEARCHING ->
      hooks w' = with_status streaming (hooks w)
      /\ emitted (syncStatus st) w = [CSetStatus streaming])
  /\ (forall s, st = Some s ->
      s = AssistantMessageStatus.PAUSED \/ s = AssistantMessageStatus.ERROR
      \/ s = AssistantMessageStatus.SUCCESS ->
      hooks w' = with_status finished (hooks w)
      /\ emitted (syncStatus st) w = [CSetStatus finished])
  /\ ((forall message, message ∈ allMessages r -> msg_role message <> assistant) ->
      st = None)
  /\ (st = None -> w' = w)
  /\ (forall s, st = Some s ->
      s <> AssistantMessageStatus.PENDING -> s <> AssistantMessageStatus.PROCESSING ->
      s <> AssistantMessageStatus.SEARCHING -> s <> AssistantMessageStatus.PAUSED ->
      s <> AssistantMessageStatus.ERROR -> s <> AssistantMessageStatus.SUCCESS ->
      hooks w' = hooks w
      /\ emitted (syncStatus st) w = [CLog warn "Unexpected assistant message status:"])
  /\ refs w' = refs w /\ db w' = db w.
Proof.
  intros st w'. subst w'. unfold emitted.
  split; [reflexivity|].
  split; [| split; [| split; [| split; [| split; [| split; [| split]]]]]].
  - unfold st, syncStatus_deps. rewrite currentAssistantMessage_last. reflexivity.
  - intros s -> Hs.
    destruct Hs as [-> | [-> | ->]]; code; cbn; rewrite drop_app_length; auto.
  - intros s -> Hs.
    destruct Hs as [-> | [-> | ->]]; code; cbn; rewrite drop_app_length; auto.
  - intros Hnone. unfold st, syncStatus_deps.
    apply currentAssistantMessage_None in Hnone. rewrite Hnone. reflexivity.
  - intros ->. reflexivity.
  - intros s -> H1 H2 H3 H4 H5 H6.
    apply String.eqb_neq in H1, H2, H3, H4, H5, H6.
    unfold syncStatus. rewrite H1, H2, H3, H4, H5, H6. code. cbn.
    rewrite drop_app_length. auto.
  - apply (keeps_exec refs). keeps_code.
  - apply (keeps_exec db). keeps_code.
Qed.

(** What [handlePause] calls, in order. *)
Lemma handlePause_calls (w : World) :
  calls (exec handlePause w) =
  calls w
  ++ [CLog silly "Try to pause: "]
  ++ (if truthy (askId (refs w)) then [CAbortCompletion (askId (refs w))] else [])
  ++ match topicRef (refs w) with
     | Some topic =>
         if truthy (topic_id topic) then [CPauseTrace (topic_id topic)] else []
     | None => []
     end.
Proof.
  code. destruct (truthy (askId (refs w))); code;
    destruct (topicRef (refs w)) as [t|]; code;
    try destruct (truthy (topic_id t)); code;
    rewrite <- ?app_assoc; cbn; rewrite ?app_nil_r; reflexivity.
Qed.

(** What [updateTargetLanguage] does with a saved, non-empty language code. *)
Lemma updateTargetLanguage_saved (r : Render) (w : World) (saved : string) :
  isLanguagesLoaded (env r) = true ->
  db w !! "translate:target:language" = Some saved ->
  saved <> "" ->
  let l := getLanguageByLangcode (env r) saved in
  exec (updateTargetLanguage r) w =
  {| hooks := with_targetLanguage l (hooks w);
     refs := with_targetLangRef l (refs w);
     db := db w;
     calls := calls w ++ [CDbGet "translate:target:language"; CSetTargetLanguage l];
     rendered := rendered w |}.
Proof.
  intros Hl Hdb Hs. apply truthy_true in Hs.
  unfold updateTargetLanguage. rewrite Hl. cbn [negb].
  rewrite exec_bind. cbn [db_settings_get fst]. rewrite Hdb, Hs.
  code. rewrite <- app_assoc. reflexivity.
Qed.

(** C9: with the catalog loaded and a saved, non-empty language code that
    the catalog resolves to [UNKNOWN], [updateTargetLanguage] stores
    [UNKNOWN] itself in the state cell and in the mirror ref; it logs no
    warning and does not substitute [LanguagesEnum.zhCN], unlike
    [initialTargetLanguage], which on the same lookup result yields
    [zhCN]. *)
Theorem updateTargetLanguage_keeps_unknown
  (r : Render) (w : World) (saved : string) :
  isLanguagesLoaded (env r) = true ->
  db w !! "translate:target:language" = Some saved ->
  saved <> "" ->
  getLanguageByLangcode (env r) saved = UNKNOWN ->
  let w' := exec (updateTargetLanguage r) w in
  targetLanguage (hooks w') = UNKNOWN
  /\ targetLangRef (refs w') = UNKNOWN
  /\ emitted (updateTargetLanguage r) w =
     [CDbGet "translate:target:language"; CSetTargetLanguage UNKNOWN]
  /\ (UNKNOWN <> zhCN -> targetLanguage (hooks w') <> zhCN
                         /\ targetLangRef (refs w') <> zhCN)
  /\ (forall e, language e = saved ->
      getLanguageByLangcode e = getLanguageByLangcode (env r) ->
      fst (initialTargetLanguage e) = zhCN).
Proof.
  intros Hl Hdb Hs Hu w'. subst w'. unfold emitted.
  rewrite (updateTargetLanguage_saved r w saved Hl Hdb Hs). rewrite Hu. cbn.
  rewrite drop_app_length.
  repeat split; auto.
  intros e He Hg. unfold initialTargetLanguage. rewrite Hg, He, Hu.
  case_decide; [congruence | reflexivity].
Qed.

(** *** [initialize], branch by branch *)

Lemma initialize_already (r : Render) (w : World) :
  initialized (seen r) = true ->
  initialize r w = logger silly "[initialize] Already initialized." w.
Proof. intros H. unfold initialize. rewrite H. reflexivity. Qed.

Lemma initialize_not_loaded (r : Render) (w : World) :
  initialized (seen r) = false ->
  isLanguagesLoaded (env r) = false ->
  initialize r w =
  logger silly "[initialize] Languages not loaded. Skip initialization." w.
Proof. intros H1 H2. unfold initialize. rewrite H1, H2. reflexivity. Qed.

Lemma initialize_no_text (r : Render) (w : World) :
  initialized (seen r) = false ->
  isLanguagesLoaded (env r) = true ->
  selectedText (action (env r)) = None ->
  initialize r w = logger error_level "[initialize] No selected text." w.
Proof. intros H1 H2 H3. unfold initialize. rewrite H1, H2, H3. reflexivity. Qed.

Lemma initialize_completes (r : Render) (w : World) (text : string) :
  initialized (seen r) = false ->
  isLanguagesLoaded (env r) = true ->
  selectedText (action (env r)) = Some text ->
  let w1 := afterLanguageStep r w in
  let lang := targetLangRef (refs w1) in
  let a := defaultTranslateAssistant lang text in
  exec (initialize r) w =
  {| hooks := with_initialized true (hooks w1);
     refs := with_topicRef (Some (defaultTopic (assistant_id a)))
               (with_assistantRef (Some a) (refs w1));
     db := db w1;
     calls := calls w1 ++
              [CLog silly "[initialize] updateTargetLanguage completed.";
               CGetDefaultTranslateAssistant lang text;
               CGetDefaultTopic (assistant_id a);
               CSetInitialized true];
     rendered := rendered w1 |}.
Proof.
  intros H1 H2 H3. unfold initialize, afterLanguageStep. rewrite H1, H2, H3.
  cbn [negb]. rewrite !exec_seq.
  generalize (exec (updateTargetLanguage r)
                (exec (logger silly "[initialize] Start initialization.") w)).
  intros w1. code. rewrite <- !app_assoc. reflexivity.
Qed.

(** The language step neither builds an assistant or a topic nor marks
    the component initialized. *)
Lemma afterLanguageStep_frame (r : Render) (w : World) :
  let w1 := afterLanguageStep r w in
  initialized (hooks w1) = initialized (hooks w)
  /\ assistantRef (refs w1) = assistantRef (refs w)
  /\ topicRef (refs w1) = topicRef (refs w)
  /\ rendered w1 = rendered w
  /\ (exists l, calls w1 = calls w ++ l
      /\ count is_assistant_creation l = 0 /\ count is_topic_creation l = 0
      /\ count is_fetch l = 0 /\ count is_init_mark l = 0).
Proof.
  cbn zeta. unfold afterLanguageStep. rewrite <- exec_seq.
  set (m := (logger silly "[initialize] Start initialization." ;;
             updateTargetLanguage r)).
  assert (Ha : appends m) by (unfold m; appends_code).
  split; [| split; [| split; [| split]]].
  - apply (keeps_exec (fun w => initialized (hooks w))). unfold m. keeps_code.
  - apply (keeps_exec (fun w => assistantRef (refs w))). unfold m. keeps_code.
  - apply (keeps_exec (fun w => topicRef (refs w))). unfold m. keeps_code.
  - apply (keeps_exec rendered). unfold m. keeps_code.
  - exists (emitted m w). split; [apply Ha|].
    assert (K : forall p,
               keeps (fun w => count p (calls w)) m -> count p (emitted m w) = 0).
    { intros p Hk. pose proof (count_emitted p m w Ha) as E.
      rewrite (keeps_exec _ _ _ Hk) in E. lia. }
    repeat split; apply K; unfold m; keeps_code.
Qed.

Lemma initialize_skips (r : Render) (w : World) :
  initialized (seen r) = true \/ isLanguagesLoaded (env r) = false
  \/ selectedText (action (env r)) = None ->
  exists lvl msg, initialize r w = logger lvl msg w.
Proof.
  intros H. unfold initialize.
  destruct (initialized (seen r)); [eauto|].
  destruct (isLanguagesLoaded (env r)); [|eauto]. cbn [negb].
  destruct (selectedText (action (env r))); [|eauto].
  destruct H as [H | [H | H]]; discriminate.
Qed.

(** A call that only logs changes no state and builds nothing. *)
Lemma logger_only {A} (m : M A) (w : World) (lvl : Level) (msg : string) :
  snd (m w) = snd (logger lvl msg w) ->
  hooks (exec m w) = hooks w /\ refs (exec m w) = refs w
  /\ db (exec m w) = db w /\ rendered (exec m w) = rendered w
  /\ emitted m w = [CLog lvl msg].
Proof.
  intros H. unfold emitted, exec. rewrite H. cbn.
  rewrite drop_app_length. auto.
Qed.

Lemma initialize_completes_made (r : Render) (w : World) (text : string) :
  initialized (seen r) = false ->
  isLanguagesLoaded (env r) = true ->
  selectedText (action (env r)) = Some text ->
  let w' := exec (initialize r) w in
  let made := emitted (initialize r) w in
  initialized (hooks w') = true
  /\ (exists lang,
      assistantRef (refs w') = Some (defaultTranslateAssistant lang text)
      /\ topicRef (refs w') =
         Some (defaultTopic (assistant_id (defaultTranslateAssistant lang text))))
  /\ rendered w' = rendered w
  /\ calls w' = calls w ++ made
  /\ count is_assistant_creation made = 1
  /\ count is_topic_creation made = 1
  /\ count is_init_mark made = 1
  /\ count is_fetch made = 0.
Proof.
  intros H1 H2 H3. cbn zeta. unfold emitted.
  rewrite (initialize_completes r w text H1 H2 H3). cbn.
  destruct (afterLanguageStep_frame r w) as (_ & _ & _ & Hr & l & Hl & Ha & Ht & Hf & Hm).
  rewrite Hl, <- app_assoc, drop_app_length.
  split; [reflexivity|]. split; [eauto|]. split; [exact Hr|].
  split; [reflexivity|].
  rewrite !count_app, Ha, Ht, Hf, Hm. cbn. auto.
Qed.

(** *** [initialize] and its await *)

(** [initialize] is its part before the await followed at once by its
    part after it. *)
Lemma initialize_split (r : Render) (w : World) :
  exec (initialize r) w =
  match initialize_begin r w with
  | (Some s, w1) => exec (initialize_resume s) w1
  | (None, w1) => w1
  end.
Proof.
  unfold initialize, initialize_begin.
  destruct (initialized (seen r)); [reflexivity|].
  destruct (isLanguagesLoaded (env r)) eqn:Hl; [| reflexivity]. cbn [negb].
  destruct (selectedText (action (env r))) as [text|]; [| reflexivity].
  unfold updateTargetLanguage, updateTargetLanguage_begin, initialize_resume,
    updateTargetLanguage_resume.
  rewrite Hl. reflexivity.
Qed.

(** A call that stops at a guard awaits nothing. *)
Lemma initialize_begin_skips (r : Render) (w : World) :
  initialized (seen r) = true \/ isLanguagesLoaded (env r) = false
  \/ selectedText (action (env r)) = None ->
  initialize_begin r w = (None, exec (initialize r) w).
Proof.
  intros H. unfold initialize, initialize_begin.
  destruct (initialized (seen r)); [reflexivity|].
  destruct (isLanguagesLoaded (env r)); [| reflexivity]. cbn [negb].
  destruct (selectedText (action (env r))); [| reflexivity].
  destruct H as [H | [H | H]]; discriminate.
Qed.

(** A call reaches its await only past the three guards. *)
Lemma initialize_begin_suspends (r : Render) (w w1 : World) (s : Suspended) :
  initialize_begin r w = (Some s, w1) ->
  initialized (seen r) = false /\ isLanguagesLoaded (env r) = true
  /\ selectedText (action (env r)) = Some (s_text s) /\ s_render s = r.
Proof.
  unfold initialize_begin.
  destruct (initialized (seen r)); [discriminate|].
  destruct (isLanguagesLoaded (env r)); [| discriminate]. cbn [negb].
  destruct (selectedText (action (env r))); [| discriminate].
  rewrite !run_bind. cbn [mret M_ret fst snd]. intros [= <- _]. cbn. auto.
Qed.

(** C4 (as amended): [initialize] builds the assistant and the topic and
    marks the component initialized only when the catalog is loaded and
    the selected text is defined.  With the catalog not loaded it changes
    nothing and builds nothing, whatever the selected text; with the
    selected text undefined it changes nothing and builds nothing,
    whatever the catalog flag.  The error is logged where the call gets
    as far as the text check (not yet initialized, catalog loaded); with
    the catalog not loaded the call stops one guard earlier and what it
    logs is that skip, at level silly.  With both conditions met and the
    component not yet initialized, it does complete.  A call reaches its
    await only with the catalog loaded and the text defined; one that
    lacks either returns before it. *)
Theorem initialize_gating (r : Render) (w : World) :
  let w' := exec (initialize r) w in
  let made := emitted (initialize r) w in
  (isLanguagesLoaded (env r) = false ->
   hooks w' = hooks w /\ refs w' = refs w /\ db w' = db w
   /\ count is_assistant_creation made = 0 /\ count is_topic_creation made = 0
   /\ count is_init_mark made = 0)
  /\ (selectedText (action (env r)) = None ->
      hooks w' = hooks w /\ refs w' = refs w /\ db w' = db w
      /\ count is_assistant_creation made = 0 /\ count is_topic_creation made = 0
      /\ count is_init_mark made = 0)
  /\ (selectedText (action (env r)) = None ->
      initialized (seen r) = false -> isLanguagesLoaded (env r) = true ->
      made = [CLog error_level "[initialize] No selected text."])
  /\ (count is_assistant_creation made <> 0 \/ count is_topic_creation made <> 0
      \/ count is_init_mark made <> 0 ->
      isLanguagesLoaded (env r) = true /\ is_Some (selectedText (action (env r))))
  /\ (initialized (seen r) = false -> isLanguagesLoaded (env r) = true ->
      is_Some (selectedText (action (env r))) ->
      initialized (hooks w') = true
      /\ is_Some (assistantRef (refs w')) /\ is_Some (topicRef (refs w'))
      /\ count is_assistant_creation made = 1 /\ count is_topic_creation made = 1
      /\ count is_init_mark made = 1)
  /\ (initialized (seen r) = false -> isLanguagesLoaded (env r) = false ->
      made = [CLog silly "[initialize] Languages not loaded. Skip initialization."])
  /\ (forall (s : Suspended) (w1 : World),
      initialize_begin r w = (Some s, w1) ->
      isLanguagesLoaded (env r) = true
      /\ selectedText (action (env r)) = Some (s_text s))
  /\ (isLanguagesLoaded (env r) = false \/ selectedText (action (env r)) = None ->
      initialize_begin r w = (None, w')).
Proof.
  cbn zeta.
  assert (Hskip : initialized (seen r) = true \/ isLanguagesLoaded (env r) = false
                  \/ selectedText (action (env r)) = None ->
                  hooks (exec (initialize r) w) = hooks w
                  /\ refs (exec (initialize r) w) = refs w
                  /\ db (exec (initialize r) w) = db w
                  /\ count is_assistant_creation (emitted (initialize r) w) = 0
                  /\ count is_topic_creation (emitted (initialize r) w) = 0
                  /\ count is_init_mark (emitted (initialize r) w) = 0).
  { intros H. destruct (initialize_skips r w H) as (lvl & msg & E).
    destruct (logger_only (initialize r) w lvl msg) as (Hh & Hr & Hd & _ & Hm);
      [rewrite E; reflexivity|].
    rewrite Hm. repeat split; auto. }
  split; [| split; [| split; [| split; [| split; [| split; [| split]]]]]].
  - intros H. apply Hskip. auto.
  - intros H. apply Hskip. auto.
  - intros H1 H2 H3.
    apply (logger_only (initialize r) w error_level "[initialize] No selected text.").
    rewrite (initialize_no_text r w H2 H3 H1). reflexivity.
  - intros Hmade.
    destruct (isLanguagesLoaded (env r)) eqn:Hl;
      [| destruct (Hskip (or_intror (or_introl eq_refl))) as (_ & _ & _ & ? & ? & ?); lia].
    destruct (selectedText (action (env r))) eqn:Ht;
      [eauto | destruct (Hskip (or_intror (or_intror eq_refl))) as (_ & _ & _ & ? & ? & ?); lia].
  - intros H1 H2 [text H3].
    destruct (initialize_completes_made r w text H1 H2 H3)
      as (Hi & (lang & Ha & Ht) & _ & _ & Hca & Hct & Hcm & _).
    rewrite Ha, Ht. eauto 10.
  - intros H1 H2.
    apply (logger_only (initialize r) w silly
             "[initialize] Languages not loaded. Skip initialization.").
    rewrite (initialize_not_loaded r w H1 H2). reflexivity.
  - intros s w1 Hb.
    destruct (initialize_begin_suspends r w w1 s Hb) as (_ & Hl & Ht & _). auto.
  - intros H. apply initialize_begin_skips. auto.
Qed.

(** *** [fetchResult], branch by branch *)

Lemma fetchResult_noop (r : Render) (w : World) :
  initialized (seen r) = false \/ assistantRef (refs w) = None
  \/ topicRef (refs w) = None \/ selectedText (action (env r)) = None
  \/ selectedText (action (env r)) = Some "" ->
  fetchResult r w = (tt, w).
Proof.
  intros H. unfold fetchResult. rewrite !run_bind. cbn [read_refs fst snd].
  destruct (assistantRef (refs w)); [| reflexivity].
  destruct (topicRef (refs w)); [| reflexivity].
  destruct (selectedText (action (env r))) as [text|]; [| reflexivity].
  destruct (truthy text) eqn:Ht; [| reflexivity].
  destruct (initialized (seen r)); [| reflexivity].
  destruct H as [H | [H | [H | [H | H]]]]; try discriminate.
  injection H as ->. discriminate.
Qed.

Lemma fetchResult_runs
  (r : Render) (w : World) (a : Assistant) (topic : Topic) (text : string) :
  initialized (seen r) = true ->
  assistantRef (refs w) = Some a ->
  topicRef (refs w) = Some topic ->
  selectedText (action (env r)) = Some text ->
  text <> "" ->
  let assistant := defaultTranslateAssistant (targetLanguage (seen r)) text in
  exec (fetchResult r) w =
  {| hooks := hooks w;
     refs := with_assistantRef (Some assistant) (refs w);
     db := db w;
     calls := calls w ++
              [CGetDefaultTranslateAssistant (targetLanguage (seen r)) text;
               CLog debug "process once";
               CProcessMessages assistant topic (assistant_content assistant)];
     rendered := rendered w |}.
Proof.
  intros Hi Ha Ht Hs Hne. apply truthy_true in Hne.
  unfold fetchResult, exec. rewrite !run_bind. cbn [read_refs fst snd].
  rewrite Ha, Ht, Hs, Hne, Hi. cbn [andb]. code.
  rewrite <- ?app_assoc. reflexivity.
Qed.

(** *** The invariant *)

Lemma Inv_facts (w w' : World) : facts w' = facts w -> Inv w -> Inv w'.
Proof.
  unfold facts, Inv. intros E. injection E as -> -> -> -> -> -> ->. auto.
Qed.

Lemma Inv_keeps {A} (m : M A) (w : World) :
  keeps facts m -> Inv w -> Inv (exec m w).
Proof. intros Hk. apply Inv_facts. apply Hk. Qed.

Lemma logger_facts (lvl : Level) (msg : string) : keeps facts (logger lvl msg).
Proof. keeps_code. Qed.

Lemma Inv_initialize (r : Render) (w : World) :
  Inv w -> seen r = hooks w -> Inv (exec (initialize r) w).
Proof.
  intros HI Hs.
  destruct (initialized (seen r)) eqn:Hi;
    [| destruct (isLanguagesLoaded (env r)) eqn:Hl;
       [destruct (selectedText (action (env r))) as [text|] eqn:Ht |]].
  - apply (Inv_facts w); [| exact HI]. unfold exec.
    rewrite (initialize_already r w Hi). apply logger_facts.
  - destruct (initialize_completes_made r w text Hi Hl Ht)
      as (Hi' & (lang & Ha & Htp) & Hrd & Hc & _ & Hct & Hcm & _).
    destruct HI as [_ HI]. rewrite <- Hs, Hi in HI.
    destruct HI as (_ & _ & _ & Ht0 & Hm0).
    unfold Inv. rewrite Hi', Ha, Htp, Hc, !count_app, Hct, Hcm, Ht0, Hm0.
    eauto 10.
  - apply (Inv_facts w); [| exact HI]. unfold exec.
    rewrite (initialize_no_text r w Hi Hl Ht). apply logger_facts.
  - apply (Inv_facts w); [| exact HI]. unfold exec.
    rewrite (initialize_not_loaded r w Hi Hl). apply logger_facts.
Qed.

Lemma Inv_fetchResult (r : Render) (w : World) :
  Inv w -> rendered w = r -> Inv (exec (fetchResult r) w).
Proof.
  intros HI Hr.
  destruct (initialized (seen r)) eqn:Hi;
    [| unfold exec; rewrite fetchResult_noop; auto].
  destruct (assistantRef (refs w)) as [a|] eqn:Ha;
    [| unfold exec; rewrite fetchResult_noop; auto].
  destruct (topicRef (refs w)) as [topic|] eqn:Ht;
    [| unfold exec; rewrite fetchResult_noop; auto].
  destruct (selectedText (action (env r))) as [text|] eqn:Hs;
    [| unfold exec; rewrite fetchResult_noop; auto 6].
  destruct (decide (text = "")) as [-> | Hne];
    [unfold exec; rewrite fetchResult_noop; auto 6 |].
  rewrite (fetchResult_runs r w a topic text Hi Ha Ht Hs Hne).
  destruct HI as [H1 H2]. rewrite Hr in H1. specialize (H1 Hi).
  rewrite H1 in H2. destruct H2 as (_ & Htp & Hct & Hcm).
  unfold Inv. cbn [hooks refs calls rendered with_assistantRef assistantRef topicRef].
  rewrite H1, !count_app, Hct, Hcm, Ht. split; [auto|]. rewrite Ht in Htp.
  repeat split; eauto.
Qed.

Lemma useEffect_cases {D} `{EqDecision D}
  (prev : option D) (cur : D) (body : M unit) (w : World) :
  exec (useEffect prev cur body) w = w \/
  exec (useEffect prev cur body) w = exec body w.
Proof.
  unfold useEffect. destruct prev as [d|]; [| auto].
  destruct (decide (d = cur)); auto.
Qed.

Lemma syncStatus_facts (st : option string) : keeps facts (syncStatus st).
Proof. keeps_code. Qed.

Lemma Inv_effects (prev : option Render) (r : Render) (w : World) :
  Inv w -> rendered w = r -> seen r = hooks w -> Inv (exec (effects prev r) w).
Proof.
  intros HI Hr Hs. unfold effects. rewrite !exec_seq.
  set (w1 := exec (useEffect _ _ (initialize r)) w).
  assert (H1 : Inv w1 /\ rendered w1 = r).
  { unfold w1. destruct (useEffect_cases (initialize_deps <$> prev)
                           (initialize_deps r) (initialize r) w) as [-> | ->];
      [auto |].
    split; [apply Inv_initialize; auto |].
    rewrite (keeps_exec rendered); [exact Hr | keeps_code]. }
  destruct H1 as [HI1 Hr1].
  set (w2 := exec (useEffect _ _ (fetchResult r)) w1).
  assert (H2 : Inv w2).
  { unfold w2. destruct (useEffect_cases (fetchResult_deps <$> prev)
                           (fetchResult_deps r) (fetchResult r) w1) as [-> | ->];
      [auto | apply Inv_fetchResult; auto]. }
  destruct (useEffect_cases (syncStatus_deps <$> prev) (syncStatus_deps r)
              (syncStatus (syncStatus_deps r)) w2) as [-> | ->];
    [auto | apply Inv_keeps; [apply syncStatus_facts | exact H2]].
Qed.

Lemma Inv_mount (e : Env) (db0 : gmap string string) : Inv (mount e db0).
Proof.
  unfold mount. destruct (initialTargetLanguage e) as [lang log] eqn:E.
  apply Inv_effects; [| reflexivity | reflexivity].
  unfold Inv. cbn. split; [discriminate|].
  unfold initialTargetLanguage in E.
  destruct (decide (getLanguageByLangcode e (language e) <> UNKNOWN));
    injection E as <- <-; auto.
Qed.

Lemma Inv_rerender (e : Env) (w : World) : Inv w -> Inv (exec (rerender e) w).
Proof.
  intros HI. unfold rerender, exec. rewrite run_bind. cbn [set_rendered fst snd].
  apply Inv_effects; [| reflexivity | reflexivity].
  destruct HI as [_ HI]. unfold Inv. cbn. auto.
Qed.

Lemma Inv_step (o : Op) (w : World) : Inv w -> Inv (exec (step o) w).
Proof.
  intros HI. destruct o.
  - apply Inv_rerender; exact HI.
  - apply (Inv_keeps (handleChangeLanguage (rendered w) newTargetLanguage));
      [keeps_code | exact HI].
  - apply (Inv_keeps handlePause); [keeps_code | exact HI].
  - change (Inv (exec (setContentToCopy "" ;; fetchResult (rendered w)) w)).
    rewrite exec_seq. apply Inv_fetchResult.
    + apply Inv_keeps; [keeps_code | exact HI].
    + apply (keeps_exec rendered). keeps_code.
  - apply (Inv_keeps (toggleOriginal (rendered w))); [keeps_code | exact HI].
  - apply (Inv_keeps (setAskId id)); [keeps_code | exact HI].
  - apply (Inv_keeps onStream); [keeps_code | exact HI].
  - apply (Inv_keeps (onFinish content)); [keeps_code | exact HI].
  - apply (Inv_keeps (onError message)); [keeps_code | exact HI].
Qed.

Lemma Inv_run (ops : list Op) (w : World) : Inv w -> Inv (run ops w).
Proof.
  revert w. induction ops as [|o ops IH]; intros w HI; [exact HI|].
  cbn. apply IH. apply Inv_step. exact HI.
Qed.

Lemma Inv_reachable (e : Env) (db0 : gmap string string) (ops : list Op) :
  Inv (run ops (mount e db0)).
Proof. apply Inv_run, Inv_mount. Qed.



(** C5: [fetchResult] does nothing at all (the world is left as it is: no
    call to [processMessages], hence no callback handed over, and no state
    change) when its closure has not seen [initialized], when the
    assistant or the topic ref is empty, or when the selected text is
    undefined or empty.  In every world a mounted component can reach,
    while the component is not initialized nothing has been submitted, both
    refs are empty, and a call to the [fetchResult] in use does nothing. *)
Theorem fetchResult_guard :
  (forall (r : Render) (w : World),
      initialized (seen r) = false \/ assistantRef (refs w) = None
      \/ topicRef (refs w) = None \/ selectedText (action (env r)) = None
      \/ selectedText (action (env r)) = Some "" ->
      fetchResult r w = (tt, w))
  /\ (forall (e : Env) (db0 : gmap string string) (ops : list Op),
      let w := run ops (mount e db0) in
      initialized (hooks w) = false ->
      count is_fetch (calls w) = 0
      /\ assistantRef (refs w) = None /\ topicRef (refs w) = None
      /\ fetchResult (rendered w) w = (tt, w)).
Proof.
  split; [exact fetchResult_noop|].
  intros e db0 ops w Hi. destruct (Inv_reachable e db0 ops) as [H1 H2].
  fold w in H1, H2. rewrite Hi in H2. destruct H2 as (Ha & Ht & Hf & _).
  repeat split; auto. apply fetchResult_noop. auto.
Qed.

(** C6: [handleRegenerate] first calls [setContentToCopy('')] and then
    [fetchResult()], whatever the status: the content is empty afterwards,
    the fetch runs in the world where the content has been cleared, and the
    topic is the one held before.  Where [fetchResult] passes its guard,
    the calls are, in this order, the clearing, the building of the
    assistant for the target language of the render, and the submission
    to the topic held. *)
Theorem handleRegenerate_clears_then_fetches (r : Render) (w : World) :
  let w' := exec (handleRegenerate r) w in
  let cleared := exec (setContentToCopy "") w in
  contentToCopy (hooks cleared) = ""
  /\ w' = exec (fetchResult r) cleared
  /\ contentToCopy (hooks w') = ""
  /\ topicRef (refs w') = topicRef (refs w)
  /\ emitted (handleRegenerate r) w =
     CSetContentToCopy "" :: emitted (fetchResult r) cleared
  /\ (forall (a : Assistant) (topic : Topic) (text : string),
      initialized (seen r) = true -> assistantRef (refs w) = Some a ->
      topicRef (refs w) = Some topic ->
      selectedText (action (env r)) = Some text -> text <> "" ->
      let assistant := defaultTranslateAssistant (targetLanguage (seen r)) text in
      emitted (handleRegenerate r) w =
      [CSetContentToCopy "";
       CGetDefaultTranslateAssistant (targetLanguage (seen r)) text;
       CLog debug "process once";
       CProcessMessages assistant topic (assistant_content assistant)]).
Proof.
  cbn zeta.
  assert (Hseq : exec (handleRegenerate r) w =
                 exec (fetchResult r) (exec (setContentToCopy "") w))
    by (unfold handleRegenerate; apply exec_seq).
  assert (Hem : emitted (handleRegenerate r) w =
                CSetContentToCopy "" ::
                emitted (fetchResult r) (exec (setContentToCopy "") w)).
  { unfold handleRegenerate. rewrite emitted_bind; [| appends_code ..].
    rewrite (emitted_exact (setContentToCopy "") w [CSetContentToCopy ""])
      by reflexivity.
    reflexivity. }
  split; [reflexivity|]. split; [exact Hseq|].
  split; [| split; [| split; [exact Hem|]]].
  - rewrite Hseq. rewrite (keeps_exec (fun w => contentToCopy (hooks w)));
      [reflexivity | keeps_code].
  - apply (keeps_exec (fun w => topicRef (refs w))). keeps_code.
  - intros a topic text Hi Ha Ht Hs Hne. rewrite Hem. f_equal.
    apply emitted_exact.
    rewrite (fetchResult_runs r (exec (setContentToCopy "") w) a topic text
               Hi Ha Ht Hs Hne).
    reflexivity.
Qed.

(** *** Language change and the render that follows *)

Lemma handleChangeLanguage_runs
  (r : Render) (newTargetLanguage : TranslateLanguage) (w : World) :
  initialized (seen r) = true ->
  exec (handleChangeLanguage r newTargetLanguage) w =
  {| hooks := with_targetLanguage newTargetLanguage (hooks w);
     refs := with_targetLangRef newTargetLanguage (refs w);
     db := <["translate:target:language" := langCode newTargetLanguage]> (db w);
     calls := calls w ++
              [CSetTargetLanguage newTargetLanguage;
               CDbPut "translate:target:language" (langCode newTargetLanguage)];
     rendered := rendered w |}.
Proof.
  intros Hi. unfold handleChangeLanguage. rewrite Hi. cbn [negb]. code.
  rewrite <- ?app_assoc. reflexivity.
Qed.

Lemma rerender_keeps {X} (proj : World -> X) (e : Env) :
  (forall r w, proj (snd (set_rendered r w)) = proj w) ->
  (forall prev r, keeps proj (effects prev r)) ->
  keeps proj (rerender e).
Proof.
  intros Hs He w. unfold rerender. rewrite run_bind.
  rewrite He. apply Hs.
Qed.

Lemma rerender_initialized_topic (e : Env) (w : World) :
  initialized (hooks w) = true ->
  initialized (hooks (exec (rerender e) w)) = true
  /\ topicRef (refs (exec (rerender e) w)) = topicRef (refs w).
Proof.
  intros Hi. unfold rerender, exec. rewrite run_bind.
  cbn [set_rendered fst snd]. unfold effects. rewrite !run_bind.
  set (w0 := {| hooks := hooks w; refs := refs w; db := db w; calls := calls w;
                rendered := render e w |}).
  set (r := render e w).
  set (P := fun v : World => initialized (hooks v) = true
                            /\ topicRef (refs v) = topicRef (refs w)).
  assert (H0 : P w0) by (split; [exact Hi | reflexivity]).
  assert (Kf : forall m : M unit,
             keeps (fun v => (initialized (hooks v), topicRef (refs v))) m ->
             forall v, P v -> P (snd (m v))).
  { intros m Hk v [Hv1 Hv2]. specialize (Hk v). cbn beta in Hk.
    injection Hk as E1 E2. unfold P. rewrite E1, E2. split; assumption. }
  assert (H1 : P (snd (useEffect (initialize_deps <$> Some (rendered w))
                         (initialize_deps r) (initialize r) w0))).
  { destruct (useEffect_cases (initialize_deps <$> Some (rendered w))
                (initialize_deps r) (initialize r) w0) as [E | E];
      unfold exec in E; rewrite E; [exact H0|].
    rewrite (initialize_already r w0 Hi). apply (Kf (logger _ _)); [keeps_code | exact H0]. }
  apply (Kf (useEffect _ _ (syncStatus _))); [keeps_code|].
  apply (Kf (useEffect _ _ (fetchResult _))); [keeps_code|].
  exact H1.
Qed.

Lemma step_initialized_topic (o : Op) (w : World) :
  initialized (hooks w) = true ->
  initialized (hooks (exec (step o) w)) = true
  /\ topicRef (refs (exec (step o) w)) = topicRef (refs w).
Proof.
  intros Hi.
  assert (Kf : forall m : M unit,
             keeps (fun v => (initialized (hooks v), topicRef (refs v))) m ->
             initialized (hooks (exec m w)) = true
             /\ topicRef (refs (exec m w)) = topicRef (refs w)).
  { intros m Hk. specialize (Hk w). cbn beta in Hk. injection Hk as E1 E2.
    unfold exec. rewrite E1, E2. auto. }
  destruct o.
  - apply rerender_initialized_topic; exact Hi.
  - apply (Kf (handleChangeLanguage (rendered w) newTargetLanguage)). keeps_code.
  - apply (Kf handlePause). keeps_code.
  - apply (Kf (handleRegenerate (rendered w))). keeps_code.
  - apply (Kf (toggleOriginal (rendered w))). keeps_code.
  - apply (Kf (setAskId id)). keeps_code.
  - apply (Kf onStream). keeps_code.
  - apply (Kf (onFinish content)). keeps_code.
  - apply (Kf (onError message)). keeps_code.
Qed.

(** *** The error text *)

Lemma effects_error (prev : option Render) (r : Render) :
  keeps (fun w => error (hooks w)) (effects prev r).
Proof. keeps_code. Qed.

Lemma step_error (o : Op) (w : World) :
  is_onError o = false ->
  error (hooks (exec (step o) w)) = error (hooks w).
Proof.
  intros Ho.
  assert (Kf : forall m : M unit,
             keeps (fun v => error (hooks v)) m ->
             error (hooks (exec m w)) = error (hooks w))
    by (intros m Hk; apply Hk).
  destruct o; try discriminate.
  - apply (Kf (rerender e)). apply rerender_keeps; [reflexivity|].
    apply effects_error.
  - apply (Kf (handleChangeLanguage (rendered w) newTargetLanguage)). keeps_code.
  - apply (Kf handlePause). keeps_code.
  - apply (Kf (handleRegenerate (rendered w))). keeps_code.
  - apply (Kf (toggleOriginal (rendered w))). keeps_code.
  - apply (Kf (setAskId id)). keeps_code.
  - apply (Kf onStream). keeps_code.
  - apply (Kf (onFinish content)). keeps_code.
Qed.

Lemma run_error (ops : list Op) (w : World) :
  forallb (fun o => negb (is_onError o)) ops = true ->
  error (hooks (run ops w)) = error (hooks w).
Proof.
  revert w. induction ops as [|o ops IH]; intros w H; [reflexivity|].
  change (run (o :: ops) w) with (run ops (exec (step o) w)).
  cbn in H. apply andb_true_iff in H as [Ho Hops].
  apply negb_true_iff in Ho. rewrite (IH _ Hops). apply step_error. exact Ho.
Qed.

(** C10: the error text is empty at mount, the [onError] callback is the
    one operation that writes it, and every other operation (a render
    with its effects, a change of language, pause, regenerate, the toggle,
    and the other three callbacks) leaves it as it is.  [handleRegenerate]
    clears the content to copy and keeps the error text; so through any
    sequence of operations without a new error, which may hold
    regenerations and successful completions, the text of an earlier
    error stays and every later render shows it. *)
Theorem error_written_only_by_onError :
  (forall (e : Env) (db0 : gmap string string), error (hooks (mount e db0)) = "")
  /\ (forall (message : string) (w : World),
      error (hooks (exec (step (OnError message)) w)) = message)
  /\ (forall (o : Op) (w : World),
      is_onError o = false ->
      error (hooks (exec (step o) w)) = error (hooks w))
  /\ (forall (r : Render) (w : World),
      let w' := exec (handleRegenerate r) w in
      contentToCopy (hooks w') = "" /\ error (hooks w') = error (hooks w))
  /\ (forall (ops : list Op) (w : World) (e : Env),
      forallb (fun o => negb (is_onError o)) ops = true ->
      error (hooks (run ops w)) = error (hooks w)
      /\ (error (hooks w) <> "" ->
          errorBanner (render e (run ops w)) = Some (error (hooks w)))).
Proof.
  split; [| split; [| split; [| split]]].
  - intros e db0. unfold mount. destruct (initialTargetLanguage e) as [lang log].
    rewrite (keeps_exec _ _ _ (effects_error None _)). reflexivity.
  - intros message w. reflexivity.
  - exact step_error.
  - intros r w. cbn zeta. split.
    + unfold handleRegenerate. rewrite exec_seq.
      rewrite (keeps_exec (fun w => contentToCopy (hooks w)));
        [reflexivity | keeps_code].
    + apply (keeps_exec (fun w => error (hooks w))). keeps_code.
  - intros ops w e Hops. pose proof (run_error ops w Hops) as E.
    split; [exact E|]. intros Hne. unfold errorBanner, render. cbn [seen].
    rewrite E. apply truthy_true in Hne. rewrite Hne. reflexivity.
Qed.

(** C8: [handlePause] asks for the cancellation of the stored request id
    exactly when that id is non-empty; with no id recorded it cancels
    nothing; in both cases it changes no state of the component.  When a
    topic is held and has an id, the tracing layer is told to pause that
    topic, and with no topic it is not.  In a mounted component every
    topic held was created by [getDefaultTopic]; so when created topics
    have non-empty ids, a held topic is always the one paused. *)
Theorem handlePause_cancellation :
  (forall (w : World),
      let w' := exec handlePause w in
      let made := emitted handlePause w in
      (hooks w' = hooks w /\ refs w' = refs w /\ db w' = db w
       /\ rendered w' = rendered w)
      /\ (askId (refs w) = "" -> List.filter is_abort made = [])
      /\ (askId (refs w) <> "" ->
          List.filter is_abort made = [CAbortCompletion (askId (refs w))])
      /\ (forall topic, topicRef (refs w) = Some topic -> topic_id topic <> "" ->
          List.filter is_pauseTrace made = [CPauseTrace (topic_id topic)])
      /\ (topicRef (refs w) = None -> List.filter is_pauseTrace made = [])
      /\ (forall c, c ∈ made ->
          c = CLog silly "Try to pause: " \/ is_abort c = true
          \/ is_pauseTrace c = true))
  /\ (forall (e : Env) (db0 : gmap string string) (ops : list Op) (topic : Topic),
      (forall assistantId, topic_id (defaultTopic assistantId) <> "") ->
      let w := run ops (mount e db0) in
      topicRef (refs w) = Some topic ->
      List.filter is_pauseTrace (emitted handlePause w) = [CPauseTrace (topic_id topic)]).
Proof.
  assert (Hmade : forall w,
             emitted handlePause w =
             [CLog silly "Try to pause: "]
             ++ (if truthy (askId (refs w))
                 then [CAbortCompletion (askId (refs w))] else [])
             ++ match topicRef (refs w) with
                | Some topic =>
                    if truthy (topic_id topic)
                    then [CPauseTrace (topic_id topic)] else []
                | None => []
                end).
  { intros w. unfold emitted. rewrite handlePause_calls, drop_app_length.
    reflexivity. }
  assert (Hpt : forall w topic,
             topicRef (refs w) = Some topic -> topic_id topic <> "" ->
             List.filter is_pauseTrace (emitted handlePause w)
             = [CPauseTrace (topic_id topic)]).
  { intros w t Ht Hid. rewrite Hmade. apply truthy_true in Hid. rewrite Ht, Hid.
    destruct (truthy (askId (refs w))); reflexivity. }
  split.
  - intros w. cbn zeta. rewrite Hmade.
    split; [| split; [| split; [| split; [| split]]]].
    + repeat split; [apply (keeps_exec hooks) | apply (keeps_exec refs)
                     | apply (keeps_exec db) | apply (keeps_exec rendered)];
        keeps_code.
    + intros Hid. rewrite Hid. cbn.
      destruct (topicRef (refs w)) as [t|]; [destruct (truthy (topic_id t))|];
        reflexivity.
    + intros Hid. apply truthy_true in Hid. rewrite Hid. cbn.
      destruct (topicRef (refs w)) as [t|]; [destruct (truthy (topic_id t))|];
        reflexivity.
    + intros t Ht Hid. rewrite <- Hmade. apply Hpt; assumption.
    + intros Ht. rewrite Ht. destruct (truthy (askId (refs w))); reflexivity.
    + intros c Hc.
      destruct (truthy (askId (refs w)));
        destruct (topicRef (refs w)) as [t|]; try destruct (truthy (topic_id t));
        cbn in Hc; repeat (apply elem_of_cons in Hc as [-> | Hc]); auto;
        inversion Hc.
  - intros e db0 ops topic Hids w Ht. apply Hpt; [exact Ht|].
    destruct (Inv_reachable e db0 ops) as [_ HI]. fold w in HI.
    destruct (initialized (hooks w)).
    + destruct HI as (_ & [aid Haid] & _). rewrite Ht in Haid.
      injection Haid as ->. apply Hids.
    + destruct HI as (_ & Hnone & _). rewrite Ht in Hnone. discriminate.
Qed.

(** ** Further properties of the component *)

(** *** The language step in full *)

Lemma updateTargetLanguage_result (r : Render) (w : World) :
  exec (updateTargetLanguage r) w =
  if isLanguagesLoaded (env r) then
    match db w !! "translate:target:language" with
    | Some value =>
        if truthy value then
          {| hooks := with_targetLanguage (getLanguageByLangcode (env r) value) (hooks w);
             refs := with_targetLangRef (getLanguageByLangcode (env r) value) (refs w);
             db := db w;
             calls := calls w ++
                      [CDbGet "translate:target:language";
                       CSetTargetLanguage (getLanguageByLangcode (env r) value)];
             rendered := rendered w |}
        else exec (call (CDbGet "translate:target:language")) w
    | None => exec (call (CDbGet "translate:target:language")) w
    end
  else exec (call (CLog silly "[updateTargetLanguage] Languages are not loaded. Skip.")) w.
Proof.
  unfold updateTargetLanguage.
  destruct (isLanguagesLoaded (env r)); cbn [negb]; [| reflexivity].
  rewrite exec_bind. cbn [db_settings_get fst].
  destruct (db w !! "translate:target:language") as [value|]; [| reflexivity].
  destruct (truthy value); [| reflexivity].
  code. rewrite <- ?app_assoc. reflexivity.
Qed.

(** X2: when the catalog is not loaded, when the settings table has no
    record of a target language, or when the record holds the empty
    string, [updateTargetLanguage] leaves the state, the refs and the
    table as they are; all it does is the one log, or the one read. *)
Theorem updateTargetLanguage_nothing_saved (r : Render) (w : World) :
  isLanguagesLoaded (env r) = false
  \/ db w !! "translate:target:language" = None
  \/ db w !! "translate:target:language" = Some "" ->
  let w' := exec (updateTargetLanguage r) w in
  hooks w' = hooks w /\ refs w' = refs w /\ db w' = db w
  /\ emitted (updateTargetLanguage r) w =
     if isLanguagesLoaded (env r) then [CDbGet "translate:target:language"]
     else [CLog silly "[updateTargetLanguage] Languages are not loaded. Skip."].
Proof.
  intros H. cbn zeta. unfold emitted. rewrite updateTargetLanguage_result.
  destruct (isLanguagesLoaded (env r)).
  - assert (E : match db w !! "translate:target:language" with
               | Some value => truthy value = false
               | None => True
               end).
    { destruct H as [H | [H | H]]; [discriminate | rewrite H; exact I
                                    | rewrite H; reflexivity]. }
    destruct (db w !! "translate:target:language") as [value|];
      [rewrite E|]; cbn; rewrite drop_app_length; auto.
  - cbn. rewrite drop_app_length. auto.
Qed.

(** *** The mirror ref *)

Lemma Lock_keeps {A} (m : M A) (w : World) :
  keeps (fun v => (targetLangRef (refs v), targetLanguage (hooks v))) m ->
  Lock w -> Lock (exec m w).
Proof.
  intros Hk HL. specialize (Hk w). cbn beta in Hk. injection Hk as E1 E2.
  unfold Lock, exec. rewrite E1, E2. exact HL.
Qed.

Lemma Lock_updateTargetLanguage (r : Render) (w : World) :
  Lock w -> Lock (exec (updateTargetLanguage r) w).
Proof.
  intros HL. rewrite updateTargetLanguage_result.
  destruct (isLanguagesLoaded (env r));
    [destruct (db w !! "translate:target:language") as [value|];
     [destruct (truthy value)|] |];
    try exact HL.
  reflexivity.
Qed.

Lemma Lock_initialize (r : Render) (w : World) :
  Lock w -> Lock (exec (initialize r) w).
Proof.
  intros HL.
  destruct (initialized (seen r)) eqn:Hi;
    [| destruct (isLanguagesLoaded (env r)) eqn:Hl;
       [destruct (selectedText (action (env r))) as [text|] eqn:Ht |]].
  - unfold exec. rewrite (initialize_already r w Hi). exact HL.
  - rewrite (initialize_completes r w text Hi Hl Ht). unfold afterLanguageStep.
    exact (Lock_updateTargetLanguage r
             (exec (logger silly "[initialize] Start initialization.") w) HL).
  - unfold exec. rewrite (initialize_no_text r w Hi Hl Ht). exact HL.
  - unfold exec. rewrite (initialize_not_loaded r w Hi Hl). exact HL.
Qed.

Lemma Lock_effects (prev : option Render) (r : Render) (w : World) :
  Lock w -> Lock (exec (effects prev r) w).
Proof.
  intros HL. unfold effects. rewrite !exec_seq.
  apply Lock_keeps; [keeps_code|].
  apply Lock_keeps; [keeps_code|].
  destruct (useEffect_cases (initialize_deps <$> prev) (initialize_deps r)
              (initialize r) w) as [-> | ->];
    [exact HL | apply Lock_initialize; exact HL].
Qed.

Lemma Lock_step (o : Op) (w : World) : Lock w -> Lock (exec (step o) w).
Proof.
  intros HL. destruct o.
  - unfold step, rerender, exec. rewrite run_bind. cbn [set_rendered fst snd].
    apply Lock_effects. exact HL.
  - change (Lock (exec (handleChangeLanguage (rendered w) newTargetLanguage) w)).
    destruct (initialized (seen (rendered w))) eqn:Hi.
    + rewrite (handleChangeLanguage_runs _ _ w Hi). reflexivity.
    + unfold exec, handleChangeLanguage. rewrite Hi. exact HL.
  - apply (Lock_keeps handlePause); [keeps_code | exact HL].
  - apply (Lock_keeps (handleRegenerate (rendered w))); [keeps_code | exact HL].
  - apply (Lock_keeps (toggleOriginal (rendered w))); [keeps_code | exact HL].
  - apply (Lock_keeps (setAskId id)); [keeps_code | exact HL].
  - apply (Lock_keeps onStream); [keeps_code | exact HL].
  - apply (Lock_keeps (onFinish content)); [keeps_code | exact HL].
  - apply (Lock_keeps (onError message)); [keeps_code | exact HL].
Qed.

Lemma Lock_mount (e : Env) (db0 : gmap string string) : Lock (mount e db0).
Proof.
  unfold mount. destruct (initialTargetLanguage e) as [lang log].
  apply Lock_effects. reflexivity.
Qed.

(** X3: in every world a mounted component can reach, the mirror ref
    [targetLangRef] holds the very language of the [targetLanguage] state
    cell: the two are written together, at initialization from the saved
    preference and at every change of language, and by nothing else. *)
Theorem mirror_follows_state
  (e : Env) (db0 : gmap string string) (ops : list Op) :
  targetLangRef (refs (run ops (mount e db0)))
  = targetLanguage (hooks (run ops (mount e db0))).
Proof.
  assert (H : forall w, Lock w -> Lock (run ops w)).
  { induction ops as [|o ops IH]; intros w HL; [exact HL|].
    change (run (o :: ops) w) with (run ops (exec (step o) w)).
    apply IH, Lock_step, HL. }
  apply H, Lock_mount.
Qed.

(** *** A render that sees nothing new *)

(** X5: a render whose closures would be those already in use (same
    props, same hook results, same state) runs no effect: it makes no
    call and leaves the world as it is.  In particular it submits
    nothing, so renders alone never repeat a request. *)
Theorem rerender_nothing_new (e : Env) (w : World) :
  rendered w = render e w -> exec (rerender e) w = w.
Proof.
  intros Hr. unfold rerender, exec. rewrite run_bind. cbn [set_rendered fst snd].
  rewrite <- Hr. unfold effects. rewrite !run_bind.
  unfold useEffect. cbn [fmap option_fmap option_map].
  rewrite !decide_True by reflexivity. cbn [skip mret M_ret fst snd].
  destruct w; reflexivity.
Qed.

(** *** What each cell is written by *)

Lemma step_keeps {X} (proj : World -> X) (o : Op) (w : World) :
  (forall e, o = Rerender e ->
     (forall r v, proj (snd (set_rendered r v)) = proj v)
     /\ (forall prev r, keeps proj (effects prev r))) ->
  (forall l, o = ChangeLanguage l -> forall r, keeps proj (handleChangeLanguage r l)) ->
  (o = Pause -> keeps proj handlePause) ->
  (o = Regenerate -> forall r, keeps proj (handleRegenerate r)) ->
  (o = ToggleOriginal -> forall r, keeps proj (toggleOriginal r)) ->
  (forall id, o = SetAskId id -> keeps proj (setAskId id)) ->
  (o = OnStream -> keeps proj onStream) ->
  (forall content, o = OnFinish content -> keeps proj (onFinish content)) ->
  (forall message, o = OnError message -> keeps proj (onError message)) ->
  proj (exec (step o) w) = proj w.
Proof.
  intros He Hc Hp Hr Ht Ha Hst Hf Her. destruct o.
  - destruct (He e eq_refl) as [H1 H2]. apply (rerender_keeps proj e H1 H2).
  - apply (Hc _ eq_refl).
  - apply (Hp eq_refl).
  - apply (Hr eq_refl).
  - apply (Ht eq_refl).
  - apply (Ha _ eq_refl).
  - apply (Hst eq_refl).
  - apply (Hf _ eq_refl).
  - apply (Her _ eq_refl).
Qed.

(** Settles the cases of [step_keeps] for a cell that the operation at
    hand does not write. *)
Ltac step_frame proj :=
  apply (step_keeps proj); intros; subst; try discriminate;
  first [ split; [reflexivity | intros; keeps_code] | intros; keeps_code ].

Lemma step_askId (o : Op) (w : World) :
  is_setAskId o = false -> askId (refs (exec (step o) w)) = askId (refs w).
Proof. intros Ho. step_frame (fun v : World => askId (refs v)). Qed.

Lemma run_askId (ops : list Op) (w : World) :
  forallb (fun o => negb (is_setAskId o)) ops = true ->
  askId (refs (run ops w)) = askId (refs w).
Proof.
  revert w. induction ops as [|o ops IH]; intros w H; [reflexivity|].
  change (run (o :: ops) w) with (run ops (exec (step o) w)).
  cbn in H. apply andb_true_iff in H as [Ho Hops].
  apply negb_true_iff in Ho. rewrite (IH _ Hops). apply step_askId. exact Ho.
Qed.

(** X6: the request id is written by the [setAskId] callback and by
    nothing else.  So once the completion service has reported a
    non-empty id, whatever happens next short of a newer report, a pause
    asks for the cancellation of exactly that id. *)
Theorem pause_cancels_last_reported
  (id : string) (ops : list Op) (w : World) :
  id <> "" ->
  forallb (fun o => negb (is_setAskId o)) ops = true ->
  let w' := run (SetAskId id :: ops) w in
  askId (refs w') = id
  /\ List.filter is_abort (emitted handlePause w') = [CAbortCompletion id].
Proof.
  intros Hid Hops. cbn zeta.
  change (run (SetAskId id :: ops) w) with (run ops (exec (setAskId id) w)).
  assert (E : askId (refs (run ops (exec (setAskId id) w))) = id)
    by (rewrite (run_askId ops _ Hops); reflexivity).
  split; [exact E|].
  unfold emitted. rewrite handlePause_calls, drop_app_length, E.
  apply truthy_true in Hid. rewrite Hid. cbn.
  match goal with |- context [topicRef ?x] => destruct (topicRef x) as [t|] end;
    [destruct (truthy (topic_id t))|]; reflexivity.
Qed.

Lemma step_contentToCopy (o : Op) (w : World) :
  writesContent o = false ->
  contentToCopy (hooks (exec (step o) w)) = contentToCopy (hooks w).
Proof. intros Ho. step_frame (fun v : World => contentToCopy (hooks v)). Qed.

Lemma run_contentToCopy (ops : list Op) (w : World) :
  forallb (fun o => negb (writesContent o)) ops = true ->
  contentToCopy (hooks (run ops w)) = contentToCopy (hooks w).
Proof.
  revert w. induction ops as [|o ops IH]; intros w H; [reflexivity|].
  change (run (o :: ops) w) with (run ops (exec (step o) w)).
  cbn in H. apply andb_true_iff in H as [Ho Hops].
  apply negb_true_iff in Ho. rewrite (IH _ Hops).
  apply step_contentToCopy. exact Ho.
Qed.

(** X8: the content offered for copying is written by [onFinish] and
    cleared by [handleRegenerate], and by nothing else.  A change of
    language, the fetch it causes, the start of its stream and even its
    failure leave the result of the earlier translation in the footer
    until the new request finishes. *)
Theorem content_written_by_finish_and_regenerate :
  (forall (content : string) (w : World),
      contentToCopy (hooks (exec (step (OnFinish content)) w)) = content)
  /\ (forall (ops : list Op) (w : World) (e : Env),
      forallb (fun o => negb (writesContent o)) ops = true ->
      contentToCopy (hooks (run ops w)) = contentToCopy (hooks w)
      /\ footer_content (view (render e (run ops w))) = contentToCopy (hooks w))
  /\ (forall (w : World) (e : Env) (l : TranslateLanguage) (message : string),
      footer_content
        (view (render e (run [ChangeLanguage l; Rerender e; OnStream; OnError message] w)))
      = contentToCopy (hooks w)).
Proof.
  split; [| split].
  - intros content w. reflexivity.
  - intros ops w e Hops. pose proof (run_contentToCopy ops w Hops) as E.
    split; [exact E|]. cbn [view render footer_content seen]. exact E.
  - intros w e l message. cbn [view render footer_content seen].
    apply run_contentToCopy. reflexivity.
Qed.

(** X9: the one record of the settings table the component ever writes
    is the one under ['translate:target:language']: every other key
    reads the same before and after any operation, and nothing is ever
    removed. *)
Theorem settings_other_keys_untouched (ops : list Op) (w : World) (k : string) :
  k <> "translate:target:language" ->
  db (run ops w) !! k = db w !! k.
Proof.
  intros Hk. revert w. induction ops as [|o ops IH]; intros w; [reflexivity|].
  change (run (o :: ops) w) with (run ops (exec (step o) w)).
  rewrite IH. clear IH.
  destruct o as [e | l | | | | id | | content | message].
  2: { change (db (exec (handleChangeLanguage (rendered w) l) w) !! k = db w !! k).
       destruct (initialized (seen (rendered w))) eqn:Hi.
       - rewrite (handleChangeLanguage_runs _ _ w Hi). cbn [db].
         apply lookup_insert_ne. congruence.
       - unfold exec, handleChangeLanguage. rewrite Hi. reflexivity. }
  all: f_equal; step_frame (fun v : World => db v).
Qed.

(** *** The status *)

Lemma preserves_ret {A} (P : World -> Prop) (a : A) : preserves P (mret a).
Proof. intros w Hw. exact Hw. Qed.

Lemma preserves_bind {A B} (P : World -> Prop) (m : M A) (f : A -> M B) :
  preserves P m -> (forall a, preserves P (f a)) -> preserves P (m ≫= f).
Proof.
  intros Hm Hf w Hw. rewrite run_bind. apply Hf, Hm, Hw.
Qed.

Ltac left_preparing_prim :=
  let w := fresh "w" in
  let Hw := fresh "Hw" in
  intros w Hw; cbn; first [ exact Hw | discriminate ].

Ltac left_preparing_step :=
  lazymatch goal with
  | |- preserves _ (mret _) => apply preserves_ret
  | |- preserves _ (mbind _ _) => apply preserves_bind; [ | intros ? ]
  | |- preserves _ (call _) => left_preparing_prim
  | |- preserves _ (modify_hooks _) => left_preparing_prim
  | |- preserves _ (modify_refs _) => left_preparing_prim
  | |- preserves _ (read_refs _) => left_preparing_prim
  | |- preserves _ (db_settings_get _) => left_preparing_prim
  | |- preserves _ (db_settings_put _ _) => left_preparing_prim
  | |- preserves _ (if ?b then _ else _) => destruct b
  | |- preserves _ (match ?x with _ => _ end) => destruct x
  | |- forall _, _ => intros ?
  end.

Ltac left_preparing := open_code; repeat left_preparing_step.

Lemma step_left_preparing (o : Op) (w : World) :
  status (hooks w) <> preparing -> status (hooks (exec (step o) w)) <> preparing.
Proof.
  set (P := fun v : World => status (hooks v) <> preparing).
  assert (K : forall m : M unit, preserves P m -> P w -> P (exec m w))
    by (intros m Hm Hw; apply Hm, Hw).
  destruct o.
  - intros Hw. unfold step, rerender, exec. rewrite run_bind.
    cbn [set_rendered fst snd].
    assert (He : preserves P (effects (Some (rendered w)) (render e w)))
      by (unfold P; left_preparing).
    apply He. exact Hw.
  - apply (K (handleChangeLanguage (rendered w) newTargetLanguage)).
    unfold P. left_preparing.
  - apply (K handlePause). unfold P. left_preparing.
  - apply (K (handleRegenerate (rendered w))). unfold P. left_preparing.
  - apply (K (toggleOriginal (rendered w))). unfold P. left_preparing.
  - apply (K (setAskId id)). unfold P. left_preparing.
  - apply (K onStream). unfold P. left_preparing.
  - apply (K (onFinish content)). unfold P. left_preparing.
  - apply (K (onError message)). unfold P. left_preparing.
Qed.

(** X7: no operation ever sets the status back to preparing.  The first
    render shows the loading spinner; once a stream start, a finish, an
    error or a synchronised message status has moved the status on,
    no later render shows the spinner again, whatever happens in between,
    a regeneration or a change of language included. *)
Theorem spinner_never_returns :
  (forall (e : Env) (db0 : gmap string string),
      spinner (view (rendered (mount e db0))) = true)
  /\ (forall (w : World),
      status (hooks (exec (step OnStream) w)) <> preparing)
  /\ (forall (ops : list Op) (w : World) (e : Env),
      status (hooks w) <> preparing ->
      status (hooks (run ops w)) <> preparing
      /\ spinner (view (render e (run ops w))) = false).
Proof.
  split; [| split].
  - intros e db0. unfold mount. destruct (initialTargetLanguage e) as [lang log].
    rewrite (keeps_exec rendered _ _ (effects_rendered None _)). reflexivity.
  - intros w. cbn. discriminate.
  - intros ops w e Hw.
    assert (H : status (hooks (run ops w)) <> preparing).
    { revert w Hw. induction ops as [|o ops IH]; intros w Hw; [exact Hw|].
      change (run (o :: ops) w) with (run ops (exec (step o) w)).
      apply IH, step_left_preparing, Hw. }
    split; [exact H|].
    cbn [view spinner]. unfold isPreparing, render. cbn [seen].
    destruct (status (hooks (run ops w))); [contradiction | reflexivity | reflexivity].
Qed.

Lemma effects_status_before_sync (prev : option Render) (r : Render) (w : World) :
  exec (effects prev r) w =
  exec (useEffect (syncStatus_deps <$> prev) (syncStatus_deps r)
          (syncStatus (syncStatus_deps r)))
       (exec (useEffect (initialize_deps <$> prev) (initialize_deps r) (initialize r) ;;
              useEffect (fetchResult_deps <$> prev) (fetchResult_deps r) (fetchResult r))
             w)
  /\ status (hooks (exec (useEffect (initialize_deps <$> prev) (initialize_deps r)
                            (initialize r) ;;
                          useEffect (fetchResult_deps <$> prev) (fetchResult_deps r)
                            (fetchResult r)) w))
     = status (hooks w).
Proof.
  split.
  - unfold effects. rewrite !exec_seq. reflexivity.
  - apply (keeps_exec (fun v => status (hooks v))). keeps_code.
Qed.

(** X13: of the three effects of a render the status sync runs last, and
    the other two never touch the status.  So when a render sees the same
    status of the last assistant message as the render before, the
    controller status is left as the callbacks set it; and when it sees a
    new one among the six known, the controller status after the render
    is the mapped one. *)
Theorem rerender_status (e : Env) (w : World) :
  let seenBefore := syncStatus_deps (rendered w) in
  let seenNow := syncStatus_deps (render e w) in
  let w' := exec (rerender e) w in
  (seenBefore = seenNow -> status (hooks w') = status (hooks w))
  /\ (seenNow = None -> status (hooks w') = status (hooks w))
  /\ (forall s, seenBefore <> seenNow -> seenNow = Some s ->
      s = AssistantMessageStatus.PENDING \/ s = AssistantMessageStatus.PROCESSING
      \/ s = AssistantMessageStatus.SEARCHING ->
      status (hooks w') = streaming)
  /\ (forall s, seenBefore <> seenNow -> seenNow = Some s ->
      s = AssistantMessageStatus.PAUSED \/ s = AssistantMessageStatus.ERROR
      \/ s = AssistantMessageStatus.SUCCESS ->
      status (hooks w') = finished).
Proof.
  cbn zeta. unfold rerender, exec at 1 2 3 4. rewrite run_bind.
  cbn [set_rendered fst snd].
  set (w0 := {| hooks := hooks w; refs := refs w; db := db w; calls := calls w;
                rendered := render e w |}).
  fold (exec (effects (Some (rendered w)) (render e w)) w0).
  destruct (effects_status_before_sync (Some (rendered w)) (render e w) w0)
    as [E Hst].
  rewrite E. clear E.
  set (w1 := exec (_ ;; _) w0) in *.
  change (status (hooks w0)) with (status (hooks w)) in Hst.
  cbn [fmap option_fmap option_map]. unfold useEffect.
  split; [| split; [| split]].
  - intros Heq. rewrite decide_True by exact Heq. exact Hst.
  - intros Hn. rewrite Hn. destruct (decide (syncStatus_deps (rendered w) = None));
      exact Hst.
  - intros s Hne Hs Hc. rewrite decide_False by exact Hne. rewrite Hs.
    destruct Hc as [-> | [-> | ->]]; reflexivity.
  - intros s Hne Hs Hc. rewrite decide_False by exact Hne. rewrite Hs.
    destruct Hc as [-> | [-> | ->]]; reflexivity.
Qed.

(** *** The submissions *)

Ltac keepsf_prim :=
  let w := fresh "w" in
  intros w; cbn -[List.filter]; rewrite ?List.filter_app; cbn;
  rewrite ?app_nil_r; reflexivity.

Ltac keepsf_step :=
  lazymatch goal with
  | |- keeps _ (mret _) => apply keeps_ret
  | |- keeps _ (mbind _ _) => apply keeps_bind; [ | intros ? ]
  | |- keeps _ (call _) => keepsf_prim
  | |- keeps _ (modify_hooks _) => keepsf_prim
  | |- keeps _ (modify_refs _) => keepsf_prim
  | |- keeps _ (read_refs _) => keepsf_prim
  | |- keeps _ (db_settings_get _) => keepsf_prim
  | |- keeps _ (db_settings_put _ _) => keepsf_prim
  | |- keeps _ (if ?b then _ else _) => destruct b
  | |- keeps _ (match ?x with _ => _ end) => destruct x
  | |- forall _, _ => intros ?
  end.

(** As [keeps_code], for parts that filter the record of calls. *)
Ltac keepsf_code := open_code; repeat keepsf_step.

Lemma fetch_in_filter (a : Assistant) (t : Topic) (c : string) (cs : list Call) :
  In (CProcessMessages a t c) cs <->
  In (CProcessMessages a t c) (List.filter is_fetch cs).
Proof.
  rewrite List.filter_In. split; [intros H; split; [exact H | reflexivity] | tauto].
Qed.

Lemma count_zero_filter (p : Call -> bool) (cs : list Call) :
  count p cs = 0 -> List.filter p cs = [].
Proof. unfold count. destruct (List.filter p cs); [reflexivity | discriminate]. Qed.

Lemma Submitted_keeps {A} (m : M A) (w : World) :
  keeps (fun v => (topicRef (refs v), List.filter is_fetch (calls v))) m ->
  Submitted w -> Submitted (exec m w).
Proof.
  intros Hk HS a t c Hin. specialize (Hk w). cbn beta in Hk.
  injection Hk as E1 E2. unfold exec in *.
  apply fetch_in_filter in Hin. rewrite E2 in Hin. apply fetch_in_filter in Hin.
  rewrite E1. apply HS. exact Hin.
Qed.

Lemma Submitted_fetchResult (r : Render) (w : World) :
  Submitted w -> Submitted (exec (fetchResult r) w).
Proof.
  intros HS.
  destruct (initialized (seen r)) eqn:Hi;
    [| unfold exec; rewrite fetchResult_noop; auto].
  destruct (assistantRef (refs w)) as [a0|] eqn:Ha;
    [| unfold exec; rewrite fetchResult_noop; auto].
  destruct (topicRef (refs w)) as [topic|] eqn:Ht;
    [| unfold exec; rewrite fetchResult_noop; auto].
  destruct (selectedText (action (env r))) as [text|] eqn:Hs;
    [| unfold exec; rewrite fetchResult_noop; auto 6].
  destruct (decide (text = "")) as [-> | Hne];
    [unfold exec; rewrite fetchResult_noop; auto 6 |].
  rewrite (fetchResult_runs r w a0 topic text Hi Ha Ht Hs Hne).
  intros a t c Hin. cbn [calls refs with_assistantRef topicRef] in *.
  apply in_app_or in Hin as [Hin | Hin].
  - apply HS. exact Hin.
  - cbn in Hin. destruct Hin as [Hin | [Hin | [Hin | []]]]; try discriminate.
    injection Hin as <- <- <-. rewrite Ht. eauto 6.
Qed.

Lemma Submitted_initialize (r : Render) (w : World) :
  Inv w -> seen r = hooks w -> Submitted w -> Submitted (exec (initialize r) w).
Proof.
  intros HI Hs HS.
  destruct (initialized (seen r)) eqn:Hi;
    [| destruct (isLanguagesLoaded (env r)) eqn:Hl;
       [destruct (selectedText (action (env r))) as [text|] eqn:Ht |]].
  - unfold exec. rewrite (initialize_already r w Hi).
    apply (Submitted_keeps (logger _ _)); [keepsf_code | exact HS].
  - destruct (initialize_completes_made r w text Hi Hl Ht)
      as (_ & _ & _ & Hc & _ & _ & _ & Hf).
    destruct HI as [_ HI]. rewrite <- Hs, Hi in HI.
    destruct HI as (_ & _ & Hf0 & _).
    intros a t c Hin. exfalso. apply fetch_in_filter in Hin.
    rewrite Hc, List.filter_app in Hin.
    rewrite (count_zero_filter _ _ Hf0), (count_zero_filter _ _ Hf) in Hin.
    exact Hin.
  - unfold exec. rewrite (initialize_no_text r w Hi Hl Ht).
    apply (Submitted_keeps (logger _ _)); [keepsf_code | exact HS].
  - unfold exec. rewrite (initialize_not_loaded r w Hi Hl).
    apply (Submitted_keeps (logger _ _)); [keepsf_code | exact HS].
Qed.

Lemma Submitted_effects (prev : option Render) (r : Render) (w : World) :
  Inv w -> seen r = hooks w -> Submitted w -> Submitted (exec (effects prev r) w).
Proof.
  intros HI Hs HS. unfold effects. rewrite !exec_seq.
  apply Submitted_keeps; [keepsf_code|].
  match goal with |- Submitted (exec (useEffect ?p ?c ?b) ?v) =>
    destruct (useEffect_cases p c b v) as [-> | ->];
      [| apply Submitted_fetchResult] end.
  all: destruct (useEffect_cases (initialize_deps <$> prev) (initialize_deps r)
                   (initialize r) w) as [-> | ->];
    [exact HS | apply Submitted_initialize; assumption].
Qed.

Lemma Submitted_step (o : Op) (w : World) :
  Inv w -> Submitted w -> Submitted (exec (step o) w).
Proof.
  intros HI HS. destruct o.
  - unfold step, rerender, exec. rewrite run_bind. cbn [set_rendered fst snd].
    apply Submitted_effects; [| reflexivity | exact HS].
    destruct HI as [_ HI]. unfold Inv. cbn. auto.
  - apply (Submitted_keeps (handleChangeLanguage (rendered w) newTargetLanguage));
      [keepsf_code | exact HS].
  - apply (Submitted_keeps handlePause); [keepsf_code | exact HS].
  - change (Submitted (exec (setContentToCopy "" ;; fetchResult (rendered w)) w)).
    rewrite exec_seq. apply Submitted_fetchResult.
    apply Submitted_keeps; [keepsf_code | exact HS].
  - apply (Submitted_keeps (toggleOriginal (rendered w))); [keepsf_code | exact HS].
  - apply (Submitted_keeps (setAskId id)); [keepsf_code | exact HS].
  - apply (Submitted_keeps onStream); [keepsf_code | exact HS].
  - apply (Submitted_keeps (onFinish content)); [keepsf_code | exact HS].
  - apply (Submitted_keeps (onError message)); [keepsf_code | exact HS].
Qed.

Lemma Submitted_mount (e : Env) (db0 : gmap string string) : Submitted (mount e db0).
Proof.
  unfold mount. destruct (initialTargetLanguage e) as [lang log] eqn:E.
  assert (Hlog : forall a t c, ~ In (CProcessMessages a t c) log).
  { unfold initialTargetLanguage in E.
    destruct (decide (getLanguageByLangcode e (language e) <> UNKNOWN));
      injection E as <- <-; intros a t c Hin; cbn in Hin;
      intuition discriminate. }
  apply Submitted_effects; [| reflexivity |].
  - unfold Inv. cbn. split; [discriminate|].
    unfold initialTargetLanguage in E.
    destruct (decide (getLanguageByLangcode e (language e) <> UNKNOWN));
      injection E as <- <-; auto.
  - intros a t c Hin. cbn in Hin. destruct (Hlog a t c Hin).
Qed.

(** X10: in every world a mounted component reaches through the
    operations of [Op], the calls to [initialize] taken one after the
    other (none started while another awaits its settings read), every
    request ever handed to [processMessages] went to the topic the
    component holds, carried the prompt of its assistant, and that
    assistant was built by [getDefaultTranslateAssistant] for a non-empty
    text: no request goes to another topic or is made for an empty
    selection. *)
Theorem every_submission_on_the_topic
  (e : Env) (db0 : gmap string string) (ops : list Op)
  (a : Assistant) (t : Topic) (c : string) :
  let w := run ops (mount e db0) in
  In (CProcessMessages a t c) (calls w) ->
  topicRef (refs w) = Some t
  /\ c = assistant_content a
  /\ exists l text, a = defaultTranslateAssistant l text /\ text <> "".
Proof.
  assert (H : forall w, Inv w -> Submitted w -> Submitted (run ops w)).
  { induction ops as [|o ops IH]; intros w HI HS; [exact HS|].
    change (run (o :: ops) w) with (run ops (exec (step o) w)).
    apply IH; [apply Inv_step, HI | apply Submitted_step; assumption]. }
  intros w. apply (H (mount e db0) (Inv_mount e db0) (Submitted_mount e db0)).
Qed.

(** *** Mount, initialization and the first request *)

Lemma mount_effects (e : Env) (db0 : gmap string string) :
  mount e db0 =
  exec (effects None (rendered (initialWorld e db0))) (initialWorld e db0).
Proof.
  unfold mount, initialWorld. destruct (initialTargetLanguage e) as [lang log].
  reflexivity.
Qed.

Lemma initialWorld_facts (e : Env) (db0 : gmap string string) :
  let w := initialWorld e db0 in
  hooks w = seen (rendered w) /\ env (rendered w) = e
  /\ initialized (hooks w) = false
  /\ targetLanguage (hooks w) = fst (initialTargetLanguage e)
  /\ Lock w /\ db w = db0
  /\ List.filter is_fetch (calls w) = [].
Proof.
  cbn zeta. unfold initialWorld, initialTargetLanguage, Lock.
  destruct (decide (getLanguageByLangcode e (language e) <> UNKNOWN));
    cbn; auto 10.
Qed.



Lemma useEffect_runs {D} `{EqDecision D}
  (prev : option D) (cur : D) (body : M unit) (w : World) :
  prev <> Some cur -> exec (useEffect prev cur body) w = exec body w.
Proof.
  intros Hne. unfold useEffect. destruct prev as [d|]; [| reflexivity].
  rewrite decide_False; [reflexivity | congruence].
Qed.








(** *** A component that cannot initialize *)

Lemma notReady_effects (prev : option Render) (r : Render) (w : World) :
  notReady (env r) -> initialized (seen r) = false ->
  initialized (hooks (exec (effects prev r) w)) = initialized (hooks w)
  /\ count is_assistant_creation (calls (exec (effects prev r) w))
     = count is_assistant_creation (calls w).
Proof.
  intros Hn Hi. unfold effects. rewrite !exec_seq.
  set (proj := fun v : World =>
                 (initialized (hooks v), count is_assistant_creation (calls v))).
  assert (K : forall (m : M unit) v, keeps proj m -> proj (exec m v) = proj v)
    by (intros m v Hk; apply Hk).
  assert (G : forall v v', proj v' = proj v ->
              initialized (hooks v') = initialized (hooks v)
              /\ count is_assistant_creation (calls v')
                 = count is_assistant_creation (calls v))
    by (intros v v' [= E1 E2]; auto).
  apply G. rewrite K by (unfold proj; keeps_code).
  match goal with |- proj (exec (useEffect ?p ?c ?b) ?v) = _ =>
    destruct (useEffect_cases p c b v) as [-> | ->] end;
    [| unfold exec at 1; rewrite fetchResult_noop by auto; cbn [snd]].
  all: destruct (useEffect_cases (initialize_deps <$> prev) (initialize_deps r)
                   (initialize r) w) as [-> | ->]; [reflexivity|].
  all: destruct (initialize_skips r w) as (lvl & msg & E);
    [destruct Hn; auto | unfold exec; rewrite E; apply (K (logger lvl msg));
                         unfold proj; keeps_code].
Qed.

(** X12: as long as every render finds the catalog not loaded or the
    selected text undefined, the component stays uninitialized whatever
    else happens to it: it holds neither assistant nor topic, and it has
    built no assistant, created no topic and submitted nothing. *)
Theorem not_ready_never_initializes
  (e0 : Env) (db0 : gmap string string) (ops : list Op) :
  notReady e0 ->
  Forall notReady (rendersOf ops) ->
  let w := run ops (mount e0 db0) in
  initialized (hooks w) = false
  /\ assistantRef (refs w) = None /\ topicRef (refs w) = None
  /\ count is_assistant_creation (calls w) = 0
  /\ count is_topic_creation (calls w) = 0
  /\ count is_fetch (calls w) = 0.
Proof.
  intros H0 Hops.
  set (N := fun v : World => initialized (hooks v) = false
                             /\ count is_assistant_creation (calls v) = 0).
  assert (Hm : N (mount e0 db0)).
  { rewrite mount_effects.
    destruct (initialWorld_facts e0 db0) as (Hh & He & Hi & _).
    destruct (notReady_effects None (rendered (initialWorld e0 db0))
                (initialWorld e0 db0)) as [E1 E2].
    - rewrite He. exact H0.
    - rewrite <- Hh. exact Hi.
    - unfold N. rewrite E1, E2. split; [exact Hi|].
      unfold initialWorld, initialTargetLanguage.
      destruct (decide (getLanguageByLangcode e0 (language e0) <> UNKNOWN));
        reflexivity. }
  assert (Hstep : forall o v, Inv v -> N v ->
                    match o with Rerender e => notReady e | _ => True end ->
                    N (exec (step o) v)).
  { intros o v [HI1 _] [Hn1 Hn2] Ho.
    assert (Hseen : initialized (seen (rendered v)) = false).
    { destruct (initialized (seen (rendered v))); [| reflexivity].
      rewrite HI1 in Hn1 by reflexivity. discriminate. }
    set (proj := fun u : World =>
                   (initialized (hooks u), count is_assistant_creation (calls u))).
    assert (K : forall m : M unit, keeps proj m -> N (exec m v)).
    { intros m Hk. specialize (Hk v). unfold proj in Hk.
      injection Hk as E1 E2. unfold N, exec. rewrite E1, E2. auto. }
    destruct o.
    - unfold step, rerender, exec. rewrite run_bind. cbn [set_rendered fst snd].
      match goal with |- N (snd (effects ?p ?r ?u)) =>
        destruct (notReady_effects p r u) as [E1 E2] end;
        [exact Ho | exact Hn1 |].
      unfold N, exec in *. rewrite E1, E2. auto.
    - apply (K (handleChangeLanguage (rendered v) newTargetLanguage)).
      unfold proj. keeps_code.
    - apply (K handlePause). unfold proj. keeps_code.
    - change (N (exec (setContentToCopy "" ;; fetchResult (rendered v)) v)).
      rewrite exec_seq. unfold exec at 1. rewrite fetchResult_noop by auto.
      apply (K (setContentToCopy "")). unfold proj. keeps_code.
    - apply (K (toggleOriginal (rendered v))). unfold proj. keeps_code.
    - apply (K (setAskId id)). unfold proj. keeps_code.
    - apply (K onStream). unfold proj. keeps_code.
    - apply (K (onFinish content)). unfold proj. keeps_code.
    - apply (K (onError message)). unfold proj. keeps_code. }
  assert (Hrun : forall v, Inv v -> N v -> Forall notReady (rendersOf ops) ->
                   N (run ops v)).
  { clear Hops. induction ops as [|o ops IH]; intros v HI HN Hall; [exact HN|].
    change (run (o :: ops) v) with (run ops (exec (step o) v)).
    apply IH.
    - apply Inv_step, HI.
    - apply Hstep; [exact HI | exact HN |].
      destruct o; try exact I. cbn in Hall. apply Forall_cons in Hall. tauto.
    - destruct o; cbn in Hall; try exact Hall.
      apply Forall_cons in Hall. tauto. }
  cbn zeta. destruct (Hrun _ (Inv_mount e0 db0) Hm Hops) as [Hi Ha].
  pose proof (Inv_reachable e0 db0 ops) as [_ HI]. rewrite Hi in HI.
  destruct HI as (Har & Htr & Hf & Ht & _). auto 10.
Qed.

(** *** Scrolling, the settings read and the saved code *)

Lemma step_scroll (o : Op) (w : World) :
  count is_scroll (calls (exec (step o) w)) =
  count is_scroll (calls w) + (if is_onStream o then 1 else 0).
Proof.
  destruct o; cbn [is_onStream]; rewrite ?Nat.add_0_r.
  7: { change (exec (step OnStream) w) with (exec onStream w). code.
       rewrite !count_snoc. cbn. lia. }
  all: step_frame (fun v : World => count is_scroll (calls v)).
Qed.

(** X14: the view is scrolled to the bottom once at each start of a
    stream and at no other moment: over any operations the number of
    calls to [scrollToBottom] grows by the number of [onStream]
    callbacks among them. *)
Theorem scrolls_only_on_stream_start (ops : list Op) (w : World) :
  count is_scroll (calls (run ops w)) =
  count is_scroll (calls w) + length (List.filter is_onStream ops).
Proof.
  revert w. induction ops as [|o ops IH]; intros w; [cbn; lia|].
  change (run (o :: ops) w) with (run ops (exec (step o) w)).
  rewrite IH, step_scroll. cbn [List.filter].
  destruct (is_onStream o); cbn [length]; lia.
Qed.







(** *** The awaits of [initialize] *)

Lemma effects_live_skips (prev : option Render) (r : Render) (w : World) :
  initialized (seen r) = true \/ isLanguagesLoaded (env r) = false
  \/ selectedText (action (env r)) = None ->
  effects_live prev r w = (None, exec (effects prev r) w).
Proof.
  intros H. unfold effects_live, effects, exec, useEffect.
  rewrite !run_bind.
  destruct prev as [p|]; cbn [fmap option_fmap option_map];
    [destruct (decide (initialize_deps p = initialize_deps r))|];
    rewrite ?(initialize_begin_skips r w H); reflexivity.
Qed.

(** Once the component is initialized, an operation leaves no call
    suspended: it does what [step] says. *)
Lemma step_live_initialized (o : Op) (l : Live) :
  initialized (hooks (world l)) = true ->
  step_live (Does o) l =
  {| world := exec (step o) (world l); suspended := suspended l |}.
Proof.
  intros Hi. destruct o; try reflexivity.
  cbn [step_live]. unfold rerender_live.
  rewrite effects_live_skips by (left; exact Hi).
  rewrite app_nil_r. unfold step, rerender, exec. rewrite run_bind. reflexivity.
Qed.

Lemma run_live_initialized (ops : list Op) (l : Live) :
  initialized (hooks (world l)) = true ->
  run_live (Does <$> ops) l =
  {| world := run ops (world l); suspended := suspended l |}.
Proof.
  revert l. induction ops as [|o ops IH]; intros l Hi; [destruct l; reflexivity|].
  change (run_live (Does <$> o :: ops) l)
    with (run_live (Does <$> ops) (step_live (Does o) l)).
  rewrite (step_live_initialized o l Hi).
  rewrite IH; [reflexivity|].
  apply (step_initialized_topic o (world l) Hi).
Qed.

(** *** What holds whatever the interleaving *)

Lemma Held_facts (w w' : World) : facts w' = facts w -> Held w -> Held w'.
Proof.
  unfold facts, Held. intros E. injection E as -> -> -> -> _ _ _. auto.
Qed.

Lemma Held_keeps {A} (m : M A) (w : World) :
  keeps facts m -> Held w -> Held (exec m w).
Proof. intros Hk. apply Held_facts. apply Hk. Qed.

Lemma Held_fetchResult (r : Render) (w : World) :
  Held w -> Held (exec (fetchResult r) w).
Proof.
  intros HH.
  destruct (initialized (seen r)) eqn:Hi;
    [| unfold exec; rewrite fetchResult_noop; auto].
  destruct (assistantRef (refs w)) as [a|] eqn:Ha;
    [| unfold exec; rewrite fetchResult_noop; auto].
  destruct (topicRef (refs w)) as [topic|] eqn:Ht;
    [| unfold exec; rewrite fetchResult_noop; auto].
  destruct (selectedText (action (env r))) as [text|] eqn:Hs;
    [| unfold exec; rewrite fetchResult_noop; auto 6].
  destruct (decide (text = "")) as [-> | Hne];
    [unfold exec; rewrite fetchResult_noop; auto 6 |].
  rewrite (fetchResult_runs r w a topic text Hi Ha Ht Hs Hne).
  destruct HH as [H1 H2]. unfold Held.
  cbn [hooks refs rendered with_assistantRef assistantRef topicRef].
  split; [exact H1|]. intros Hh. destruct (H2 Hh) as [_ H3].
  split; [eauto | exact H3].
Qed.

Lemma initialize_begin_facts (r : Render) : keeps facts (initialize_begin r).
Proof. unfold initialize_begin, updateTargetLanguage_begin. keeps_code. Qed.

Lemma Held_initialize_resume (s : Suspended) (w : World) :
  Held (exec (initialize_resume s) w).
Proof.
  unfold initialize_resume. rewrite exec_seq.
  generalize (exec match s_read s with
                   | Some savedTargetLang =>
                       updateTargetLanguage_resume (s_render s) savedTargetLang
                   | None => skip
                   end w).
  intros w1. code. unfold Held. cbn. eauto.
Qed.

Lemma Held_effects_live (prev : option Render) (r : Render) (w : World) :
  Held w -> Held (snd (effects_live prev r w)).
Proof.
  intros HH. unfold effects_live. rewrite !run_bind. cbn [mret M_ret snd].
  set (begin := match initialize_deps <$> prev with
                | Some d => if decide (d = initialize_deps r) then mret None
                            else initialize_begin r
                | None => initialize_begin r
                end).
  assert (H1 : Held (exec begin w)).
  { apply Held_keeps; [| exact HH]. unfold begin.
    destruct (initialize_deps <$> prev) as [d|];
      [destruct (decide (d = initialize_deps r))|];
      first [apply keeps_ret | apply initialize_begin_facts]. }
  fold (exec begin w).
  set (w1 := exec begin w) in *.
  assert (H2 : Held (exec (useEffect (fetchResult_deps <$> prev) (fetchResult_deps r)
                             (fetchResult r)) w1)).
  { destruct (useEffect_cases (fetchResult_deps <$> prev) (fetchResult_deps r)
                (fetchResult r) w1) as [-> | ->];
      [exact H1 | apply Held_fetchResult; exact H1]. }
  apply (Held_keeps (useEffect (syncStatus_deps <$> prev) (syncStatus_deps r)
                       (syncStatus (syncStatus_deps r))));
    [keeps_code | exact H2].
Qed.

Lemma Held_step (o : Op) (w : World) :
  (forall e, o <> Rerender e) -> Held w -> Held (exec (step o) w).
Proof.
  intros Ho HH. destruct o.
  - destruct (Ho e eq_refl).
  - apply (Held_keeps (handleChangeLanguage (rendered w) newTargetLanguage));
      [keeps_code | exact HH].
  - apply (Held_keeps handlePause); [keeps_code | exact HH].
  - change (Held (exec (setContentToCopy "" ;; fetchResult (rendered w)) w)).
    rewrite exec_seq. apply Held_fetchResult.
    apply Held_keeps; [keeps_code | exact HH].
  - apply (Held_keeps (toggleOriginal (rendered w))); [keeps_code | exact HH].
  - apply (Held_keeps (setAskId id)); [keeps_code | exact HH].
  - apply (Held_keeps onStream); [keeps_code | exact HH].
  - apply (Held_keeps (onFinish content)); [keeps_code | exact HH].
  - apply (Held_keeps (onError message)); [keeps_code | exact HH].
Qed.

Lemma Held_rerender_live (e : Env) (l : Live) :
  Held (world l) -> Held (world (rerender_live e l)).
Proof.
  intros [_ H2]. unfold rerender_live.
  match goal with |- context [effects_live ?p ?r ?v] =>
    pose proof (Held_effects_live p r v) as H;
    destruct (effects_live p r v) as [s w1] end.
  apply H. split; [intros Hs; exact Hs | exact H2].
Qed.

Lemma Held_step_live (ev : Event) (l : Live) :
  Held (world l) -> Held (world (step_live ev l)).
Proof.
  intros HH. destruct ev as [o|].
  - destruct o; try (apply Held_step; [discriminate | exact HH]).
    apply Held_rerender_live. exact HH.
  - cbn [step_live]. destruct (suspended l) as [|s rest]; [exact HH|].
    apply Held_initialize_resume.
Qed.

Lemma Held_mount_live (e : Env) (db0 : gmap string string) :
  Held (world (mount_live e db0)).
Proof.
  unfold mount_live.
  match goal with |- context [effects_live ?p ?r ?v] =>
    pose proof (Held_effects_live p r v) as H;
    destruct (effects_live p r v) as [s w1] end.
  apply H. destruct (initialWorld_facts e db0) as (Hh & _ & Hi & _).
  split; [rewrite <- Hh|]; rewrite Hi; discriminate.
Qed.

(** In every state a mounted component reaches, suspended calls and
    their resumptions included, [Held] holds. *)
Lemma Held_reachable (e : Env) (db0 : gmap string string) (evs : list Event) :
  Held (world (run_live evs (mount_live e db0))).
Proof.
  assert (H : forall l, Held (world l) -> Held (world (run_live evs l))).
  { induction evs as [|ev evs IH]; intros l HH; [exact HH|].
    change (run_live (ev :: evs) l) with (run_live evs (step_live ev l)).
    apply IH, Held_step_live, HH. }
  apply H, Held_mount_live.
Qed.

(** *** A change of language and the render after it *)

(** A render whose fetch dependencies differ from those of the render
    before submits, once the component is initialized. *)
Lemma fetching_render
  (w : World) (e : Env) (text : string) (a0 : Assistant) (topic : Topic) :
  fetchResult_deps (rendered w) <> fetchResult_deps (render e w) ->
  initialized (hooks w) = true ->
  assistantRef (refs w) = Some a0 ->
  topicRef (refs w) = Some topic ->
  selectedText (action e) = Some text -> text <> "" ->
  let a := defaultTranslateAssistant (targetLanguage (hooks w)) text in
  let w' := exec (rerender e) w in
  List.filter is_fetch (calls w') =
  List.filter is_fetch (calls w) ++ [CProcessMessages a topic (assistant_content a)]
  /\ assistantRef (refs w') = Some a
  /\ topicRef (refs w') = Some topic.
Proof.
  intros Hd Hi Ha Ht Hs Hne. cbn zeta.
  set (r := render e w).
  set (w0 := {| hooks := hooks w; refs := refs w; db := db w; calls := calls w;
                rendered := r |}).
  assert (Hw : exec (rerender e) w = exec (effects (Some (rendered w)) r) w0)
    by (unfold rerender, exec; rewrite run_bind; reflexivity).
  rewrite Hw. unfold effects. rewrite !exec_seq.
  set (w1 := exec (useEffect _ _ (initialize r)) w0).
  assert (H1 : refs w1 = refs w
               /\ List.filter is_fetch (calls w1) = List.filter is_fetch (calls w)).
  { unfold w1.
    destruct (useEffect_cases (initialize_deps <$> Some (rendered w))
                (initialize_deps r) (initialize r) w0) as [E | E]; rewrite E;
      [split; reflexivity|].
    unfold exec. rewrite (initialize_already r w0 Hi). cbn.
    rewrite List.filter_app. cbn. rewrite app_nil_r. auto. }
  destruct H1 as [Hr1 Hf1].
  rewrite (keeps_exec (fun v => List.filter is_fetch (calls v))) by keepsf_code.
  rewrite (keeps_exec (fun v => assistantRef (refs v))) by keeps_code.
  rewrite (keeps_exec (fun v => topicRef (refs v))) by keeps_code.
  rewrite useEffect_runs
    by (cbn [fmap option_fmap option_map]; intros E; apply Hd;
        exact (f_equal (default (fetchResult_deps (rendered w))) E)).
  rewrite (fetchResult_runs r w1 a0 topic text Hi);
    [| rewrite Hr1; exact Ha | rewrite Hr1; exact Ht | exact Hs | exact Hne].
  cbn [calls refs with_assistantRef assistantRef topicRef].
  rewrite List.filter_app, Hf1, Hr1. auto.
Qed.

Lemma change_then_fetch
  (w : World) (e : Env) (l : TranslateLanguage) (text : string)
  (a0 : Assistant) (topic : Topic) :
  initialized (seen (rendered w)) = true ->
  initialized (hooks w) = true ->
  assistantRef (refs w) = Some a0 ->
  topicRef (refs w) = Some topic ->
  selectedText (action e) = Some text -> text <> "" ->
  l <> targetLanguage (seen (rendered w)) ->
  let w' := run [ChangeLanguage l; Rerender e] w in
  let a := defaultTranslateAssistant l text in
  List.filter is_fetch (calls w') =
  List.filter is_fetch (calls w) ++ [CProcessMessages a topic (assistant_content a)]
  /\ assistantRef (refs w') = Some a
  /\ topicRef (refs w') = Some topic.
Proof.
  intros Hc Hi Ha Ht Hs Hne Hl. cbn zeta.
  change (run [ChangeLanguage l; Rerender e] w)
    with (exec (rerender e) (exec (handleChangeLanguage (rendered w) l) w)).
  rewrite (handleChangeLanguage_runs (rendered w) l w Hc).
  set (w1 := {| hooks := with_targetLanguage l (hooks w);
                refs := with_targetLangRef l (refs w);
                db := <["translate:target:language" := langCode l]> (db w);
                calls := calls w ++
                         [CSetTargetLanguage l;
                          CDbPut "translate:target:language" (langCode l)];
                rendered := rendered w |}).
  destruct (fetching_render w1 e text a0 topic) as (H1 & H2 & H3); auto.
  - unfold fetchResult_deps. cbn. intros [= _ E _]. congruence.
  - cbn [w1 hooks with_targetLanguage targetLanguage] in H1, H2.
    rewrite H1, H2, H3. cbn [w1 calls]. rewrite List.filter_app. cbn.
    rewrite app_nil_r. auto.
Qed.

Lemma change_same_no_fetch (w : World) (e : Env) :
  initialized (seen (rendered w)) = true ->
  initialized (hooks w) = true ->
  action_ref (action e) = action_ref (action (env (rendered w))) ->
  scrollToBottom_ref e = scrollToBottom_ref (env (rendered w)) ->
  let w' := run [ChangeLanguage (targetLanguage (seen (rendered w))); Rerender e] w in
  List.filter is_fetch (calls w') = List.filter is_fetch (calls w).
Proof.
  intros Hc Hi Hact Hscr. cbn zeta.
  change (run [ChangeLanguage (targetLanguage (seen (rendered w))); Rerender e] w)
    with (exec (rerender e)
            (exec (handleChangeLanguage (rendered w)
                     (targetLanguage (seen (rendered w)))) w)).
  rewrite (handleChangeLanguage_runs (rendered w) _ w Hc).
  set (l := targetLanguage (seen (rendered w))).
  set (w1 := {| hooks := with_targetLanguage l (hooks w);
                refs := with_targetLangRef l (refs w);
                db := <["translate:target:language" := langCode l]> (db w);
                calls := calls w ++
                         [CSetTargetLanguage l;
                          CDbPut "translate:target:language" (langCode l)];
                rendered := rendered w |}).
  assert (Hw1 : List.filter is_fetch (calls w1) = List.filter is_fetch (calls w)).
  { cbn [w1 calls]. rewrite List.filter_app. cbn. apply app_nil_r. }
  rewrite <- Hw1.
  set (r := render e w1).
  set (w0 := {| hooks := hooks w1; refs := refs w1; db := db w1; calls := calls w1;
                rendered := r |}).
  assert (Hw : exec (rerender e) w1 = exec (effects (Some (rendered w1)) r) w0)
    by (unfold rerender, exec; rewrite run_bind; reflexivity).
  rewrite Hw. unfold effects. rewrite !exec_seq.
  rewrite (keeps_exec (fun v => List.filter is_fetch (calls v))) by keepsf_code.
  assert (Hsame : fetchResult_deps (rendered w1) = fetchResult_deps r).
  { unfold fetchResult_deps, r, render. cbn. rewrite Hc, Hi, Hact, Hscr. reflexivity. }
  assert (Hskip : forall v,
             exec (useEffect (fetchResult_deps <$> Some (rendered w1))
                     (fetchResult_deps r) (fetchResult r)) v = v).
  { intros v. unfold useEffect. cbn [fmap option_fmap option_map].
    rewrite decide_True by exact Hsame. reflexivity. }
  rewrite Hskip.
  destruct (useEffect_cases (initialize_deps <$> Some (rendered w1))
              (initialize_deps r) (initialize r) w0) as [-> | ->]; [reflexivity|].
  unfold exec. rewrite (initialize_already r w0 Hi). cbn.
  rewrite List.filter_app. cbn. apply app_nil_r.
Qed.

(** C2 (as amended): [handleChangeLanguage] does nothing when its closure
    has not seen [initialized]; otherwise it stores the new language in
    the state cell and in the mirror ref and writes its code to the
    settings record.  In every state a mounted component reaches,
    suspended calls to [initialize] and their resumptions included: when
    the last render has seen [initialized], the selected text is
    non-empty and the new language differs from the target language that
    render saw, the change followed by a render submits exactly once,
    the assistant built for the new language, to the topic held before
    the change, one made by [getDefaultTopic]; that topic is still held
    afterwards, and no call is left suspended by the two steps.  When the
    new language is the one the last render saw, and the action and
    [scrollToBottom] are the same objects, no dependency of the fetch
    effect changes and the render submits nothing. *)
Theorem handleChangeLanguage_refetch :
  (forall (r : Render) (l : TranslateLanguage) (w : World),
      initialized (seen r) = false -> handleChangeLanguage r l w = (tt, w))
  /\ (forall (r : Render) (l : TranslateLanguage) (w : World),
      initialized (seen r) = true ->
      let w' := exec (handleChangeLanguage r l) w in
      targetLanguage (hooks w') = l /\ targetLangRef (refs w') = l
      /\ db w' !! "translate:target:language" = Some (langCode l)
      /\ emitted (handleChangeLanguage r l) w =
         [CSetTargetLanguage l; CDbPut "translate:target:language" (langCode l)])
  /\ (forall (e0 : Env) (db0 : gmap string string) (evs : list Event)
             (e : Env) (l : TranslateLanguage) (text : string),
      let L := run_live evs (mount_live e0 db0) in
      initialized (seen (rendered (world L))) = true ->
      selectedText (action e) = Some text -> text <> "" ->
      l <> targetLanguage (seen (rendered (world L))) ->
      exists topic assistantId,
        topicRef (refs (world L)) = Some topic /\ topic = defaultTopic assistantId
        /\ let L' := run_live [Does (ChangeLanguage l); Does (Rerender e)] L in
           let assistant := defaultTranslateAssistant l text in
           List.filter is_fetch (calls (world L')) =
           List.filter is_fetch (calls (world L))
           ++ [CProcessMessages assistant topic (assistant_content assistant)]
           /\ count is_fetch (calls (world L')) = count is_fetch (calls (world L)) + 1
           /\ assistantRef (refs (world L')) = Some assistant
           /\ topicRef (refs (world L')) = Some topic
           /\ suspended L' = suspended L)
  /\ (forall (e0 : Env) (db0 : gmap string string) (evs : list Event) (e : Env),
      let L := run_live evs (mount_live e0 db0) in
      initialized (seen (rendered (world L))) = true ->
      action_ref (action e) = action_ref (action (env (rendered (world L)))) ->
      scrollToBottom_ref e = scrollToBottom_ref (env (rendered (world L))) ->
      let L' := run_live
                  [Does (ChangeLanguage (targetLanguage (seen (rendered (world L)))));
                   Does (Rerender e)] L in
      List.filter is_fetch (calls (world L')) = List.filter is_fetch (calls (world L))
      /\ count is_fetch (calls (world L')) = count is_fetch (calls (world L))).
Proof.
  split; [| split; [| split]].
  - intros r l w Hi. unfold handleChangeLanguage. rewrite Hi. reflexivity.
  - intros r l w Hi. cbn zeta. unfold emitted.
    rewrite (handleChangeLanguage_runs r l w Hi). cbn.
    rewrite lookup_insert_eq, drop_app_length. auto.
  - intros e0 db0 evs e l text L Hc Hs Hne Hl.
    destruct (Held_reachable e0 db0 evs) as [H1 H2]. fold L in H1, H2.
    pose proof (H1 Hc) as Hi. destruct (H2 Hi) as ([a0 Ha] & aid & Ht).
    exists (defaultTopic aid), aid. split; [exact Ht|]. split; [reflexivity|].
    cbn zeta.
    change [Does (ChangeLanguage l); Does (Rerender e)]
      with (Does <$> [ChangeLanguage l; Rerender e]).
    rewrite (run_live_initialized _ L Hi). cbn [world suspended].
    destruct (change_then_fetch (world L) e l text a0 (defaultTopic aid)
                Hc Hi Ha Ht Hs Hne Hl) as (Hf & Ha' & Ht').
    unfold count. rewrite Hf, length_app. cbn [length]. auto.
  - intros e0 db0 evs e L Hc Hact Hscr.
    destruct (Held_reachable e0 db0 evs) as [H1 _]. fold L in H1.
    pose proof (H1 Hc) as Hi. cbn zeta.
    change [Does (ChangeLanguage (targetLanguage (seen (rendered (world L)))));
            Does (Rerender e)]
      with (Does <$> [ChangeLanguage (targetLanguage (seen (rendered (world L))));
                      Rerender e]).
    rewrite (run_live_initialized _ L Hi). cbn [world].
    pose proof (change_same_no_fetch (world L) e Hc Hi Hact Hscr) as Hf.
    cbn zeta in Hf. unfold count. rewrite Hf. auto.
Qed.

End Properties.

(** ** The properties at work on the example component *)

Section Examples.
Import Demo.
Local Open Scope list_scope.

(** C1 at work: of four messages the last of role assistant is still
    processing, so the effect sets the status to streaming. *)
Lemma syncStatus_mapping_witness :
  let r := {| env := hello; seen := hooks helloReady; allMessages := answering |} in
  syncStatus_deps r = Some "processing"
  /\ status (hooks (exec (syncStatus (syncStatus_deps r)) helloReady)) = streaming.
Proof.
  intros r. split; [reflexivity|].
  destruct (syncStatus_mapping r helloReady) as (_ & _ & H & _).
  destruct (H "processing" eq_refl (or_intror (or_introl eq_refl))) as [Hh _].
  rewrite Hh. reflexivity.
Defined.

(** C2 at work: English to French on the component that was mounted,
    had its settings read resolved and was rendered again. *)
Lemma handleChangeLanguage_refetch_witness :
  let L := run_live [SettingsRead; Does (Rerender hello)] (mount_live hello ∅) in
  count is_fetch
    (calls (world (run_live [Does (ChangeLanguage french); Does (Rerender hello)] L)))
  = count is_fetch (calls (world L)) + 1.
Proof.
  intros L.
  destruct handleChangeLanguage_refetch as (_ & _ & H & _).
  specialize (H hello ∅ [SettingsRead; Does (Rerender hello)] hello french "hello").
  cbv zeta in H. fold L in H.
  assert (H1 : initialized (seen (rendered (world L))) = true)
    by (vm_compute; reflexivity).
  assert (H2 : selectedText (action hello) = Some "hello") by reflexivity.
  assert (H3 : "hello" <> "") by discriminate.
  assert (H4 : french <> targetLanguage (seen (rendered (world L))))
    by (vm_compute; discriminate).
  destruct (H H1 H2 H3 H4) as (topic & aid & _ & _ & _ & Hc & _).
  exact Hc.
Defined.

(** The claim C2 as stated fails: choosing the language that is already
    the target, or choosing a new one when the selection is the empty
    string, is followed by no fetch although the component is
    initialized and its closures are up to date; and so is choosing a
    language that differs from the one in the state cell but is the one
    the last render saw (French chosen and not yet rendered, then
    English chosen). *)
Lemma changeLanguage_without_refetch :
  (initialized (hooks helloReady) = true
   /\ rendered helloReady = render hello helloReady
   /\ english = targetLanguage (hooks helloReady)
   /\ count is_fetch
        (calls (run [ChangeLanguage english; Rerender hello] helloReady))
      = count is_fetch (calls helloReady))
  /\ (initialized (hooks blankReady) = true
      /\ rendered blankReady = render blank blankReady
      /\ french <> targetLanguage (hooks blankReady)
      /\ count is_fetch
           (calls (run [ChangeLanguage french; Rerender blank] blankReady))
         = count is_fetch (calls blankReady))
  /\ (initialized (hooks frenchPending) = true
      /\ initialized (seen (rendered frenchPending)) = true
      /\ targetLanguage (hooks frenchPending) = french
      /\ english <> targetLanguage (hooks frenchPending)
      /\ count is_fetch
           (calls (run [ChangeLanguage english; Rerender hello] frenchPending))
         = count is_fetch (calls frenchPending)).
Proof.
  split; [| split].
  - split; [vm_compute; reflexivity|]. split; [vm_compute; reflexivity|].
    split; vm_compute; reflexivity.
  - split; [vm_compute; reflexivity|]. split; [vm_compute; reflexivity|].
    split; [vm_compute; discriminate|]. vm_compute. reflexivity.
  - split; [vm_compute; reflexivity|]. split; [vm_compute; reflexivity|].
    split; [vm_compute; reflexivity|].
    split; [vm_compute; discriminate|]. vm_compute. reflexivity.
Qed.



(** C4 at work: with the catalog not loaded nothing is built, and with it
    loaded the first call completes. *)
Lemma initialize_gating_witness :
  let waiting := env0 (Some "hello") false [] in
  count is_topic_creation
    (emitted (initialize (rendered (mount waiting ∅))) (mount waiting ∅)) = 0
  /\ count is_topic_creation
       (emitted (initialize (rendered (mount hello ∅)))
          {| hooks := seen (rendered (mount hello ∅));
             refs := {| assistantRef := None; topicRef := None; askId := "";
                        targetLangRef := english |};
             db := ∅; calls := []; rendered := rendered (mount hello ∅) |}) = 1.
Proof.
  intros waiting. split.
  - destruct (initialize_gating (rendered (mount waiting ∅)) (mount waiting ∅))
      as (H & _).
    destruct (H eq_refl) as (_ & _ & _ & _ & E & _). exact E.
  - match goal with |- count _ (emitted (initialize ?r) ?w) = 1 =>
      destruct (initialize_gating r w) as (_ & _ & _ & _ & H & _) end.
    destruct (H eq_refl eq_refl (ex_intro _ "hello" eq_refl))
      as (_ & _ & _ & _ & E & _).
    exact E.
Defined.

(** The claim C4 as stated fails in its parenthesis: with the selected
    text undefined and the catalog not loaded, the call stops at the
    catalog guard; what it logs is that skip, at level silly, and no error
    is logged. *)
Lemma undefined_text_logs_no_error :
  selectedText (action nothingYet) = None
  /\ isLanguagesLoaded nothingYet = false
  /\ calls (mount nothingYet ∅)
     = [CLog silly "[initialize] Languages not loaded. Skip initialization."]
  /\ emitted (initialize (rendered (mount nothingYet ∅))) (mount nothingYet ∅)
     = [CLog silly "[initialize] Languages not loaded. Skip initialization."].
Proof.
  split; [reflexivity|]. split; [reflexivity|].
  split; vm_compute; reflexivity.
Qed.

(** C5 at work: at mount the closures have not seen [initialized]. *)
Lemma fetchResult_guard_witness :
  fetchResult (rendered helloMounted) helloMounted = (tt, helloMounted).
Proof.
  destruct fetchResult_guard as (H & _).
  apply H. left. reflexivity.
Defined.

(** C6 at work: regenerate on the ready component. *)
Lemma handleRegenerate_clears_then_fetches_witness :
  emitted (handleRegenerate (rendered helloReady)) helloReady =
  [CSetContentToCopy "";
   CGetDefaultTranslateAssistant english "hello";
   CLog debug "process once";
   CProcessMessages
     {| da_id := "default"; da_content := "Translate to English: hello" |}
     {| dt_id := "topic-1"; dt_assistantId := "default" |}
     "Translate to English: hello"].
Proof.
  destruct (handleRegenerate_clears_then_fetches (rendered helloReady) helloReady)
    as (_ & _ & _ & _ & _ & H).
  specialize (H {| da_id := "default"; da_content := "Translate to English: hello" |}
                {| dt_id := "topic-1"; dt_assistantId := "default" |} "hello").
  assert (H1 : initialized (seen (rendered helloReady)) = true)
    by (vm_compute; reflexivity).
  assert (H2 : assistantRef (refs helloReady) =
               Some {| da_id := "default";
                       da_content := "Translate to English: hello" |})
    by (vm_compute; reflexivity).
  assert (H3 : topicRef (refs helloReady) =
               Some {| dt_id := "topic-1"; dt_assistantId := "default" |})
    by (vm_compute; reflexivity).
  assert (H4 : selectedText (action (env (rendered helloReady))) = Some "hello")
    by (vm_compute; reflexivity).
  assert (H5 : "hello" <> "") by discriminate.
  specialize (H H1 H2 H3 H4 H5). vm_compute in H. vm_compute. exact H.
Defined.

(** C7 at work: an interface language the catalog does not know. *)
Lemma initialTargetLanguage_fallback_witness :
  let e := {| action := action hello; scrollToBottom_ref := 2;
              language := "tlh"; getLanguageByLangcode := lookup;
              getLanguageByLangcode_ref := 3; isLanguagesLoaded := true;
              useTopicMessages := useTopicMessages hello |} in
  initialTargetLanguage e =
  (chinese, [CLog warn "[initialize targetLanguage] Unexpected UNKNOWN. Fallback to zh-CN"]).
Proof.
  intros e. destruct (initialTargetLanguage_fallback e ∅) as (H & _).
  apply H. reflexivity.
Defined.

(** C8 at work: with a request id recorded, pause cancels that request
    and pauses the trace of the topic. *)
Lemma handlePause_cancellation_witness :
  let w := run [Rerender hello; SetAskId "req-1"] (mount hello ∅) in
  List.filter is_abort (emitted handlePause w) = [CAbortCompletion "req-1"]
  /\ List.filter is_pauseTrace (emitted handlePause w) = [CPauseTrace "topic-1"].
Proof.
  intros w. destruct handlePause_cancellation as (H1 & H2). split.
  - destruct (H1 w) as (_ & _ & H & _).
    assert (Hid : askId (refs w) <> "") by (vm_compute; discriminate).
    specialize (H Hid). vm_compute in H. vm_compute. exact H.
  - specialize (H2 hello ∅ [Rerender hello; SetAskId "req-1"]
                  {| dt_id := "topic-1"; dt_assistantId := "default" |}).
    assert (Hids : forall aid, topic_id (defaultTopic aid) <> "")
      by (intros aid; vm_compute; discriminate).
    assert (Ht : topicRef (refs w) =
                 Some {| dt_id := "topic-1"; dt_assistantId := "default" |})
      by (vm_compute; reflexivity).
    exact (H2 Hids Ht).
Defined.

(** C9 at work: a saved code the catalog does not know. *)
Lemma updateTargetLanguage_keeps_unknown_witness :
  let w := mount hello {[ "translate:target:language" := "tlh" ]} in
  targetLanguage (hooks (exec (updateTargetLanguage (rendered w)) w)) = unknown
  /\ targetLangRef (refs (exec (updateTargetLanguage (rendered w)) w)) = unknown.
Proof.
  intros w.
  destruct (updateTargetLanguage_keeps_unknown (rendered w) w "tlh")
    as (H1 & H2 & _).
  - reflexivity.
  - reflexivity.
  - discriminate.
  - reflexivity.
  - split; [exact H1 | exact H2].
Defined.

(** C10 at work: an error, then a regeneration that succeeds; the banner
    still shows the error. *)
Lemma error_written_only_by_onError_witness :
  let w := run [OnError "boom"] helloReady in
  let later := run [Regenerate; Rerender hello; OnStream; OnFinish "bonjour"] w in
  errorBanner (render hello later) = Some "boom".
Proof.
  intros w later.
  destruct error_written_only_by_onError as (_ & _ & _ & _ & H).
  destruct (H [Regenerate; Rerender hello; OnStream; OnFinish "bonjour"] w hello eq_refl)
    as [_ Hb].
  apply Hb. discriminate.
Defined.

End Examples.

(** ** The further properties at work on the example component *)

Section FurtherExamples.
Import Demo.
Local Open Scope list_scope.


(** X2 at work: an empty settings table. *)
Lemma updateTargetLanguage_nothing_saved_witness :
  hooks (exec (updateTargetLanguage (rendered helloMounted)) helloMounted)
  = hooks helloMounted.
Proof.
  destruct (updateTargetLanguage_nothing_saved (rendered helloMounted) helloMounted)
    as (H & _).
  - right. left. vm_compute. reflexivity.
  - exact H.
Defined.


(** X5 at work: rendering the ready component again. *)
Lemma rerender_nothing_new_witness :
  exec (rerender hello) helloReady = helloReady.
Proof.
  apply rerender_nothing_new. vm_compute. reflexivity.
Defined.

(** X6 at work: a second id is reported, a stream starts, the user
    regenerates and then pauses. *)
Lemma pause_cancels_last_reported_witness :
  let w := run (SetAskId "req-2" :: [OnStream; Regenerate])
             (run [SetAskId "req-1"] helloReady) in
  List.filter is_abort (emitted handlePause w) = [CAbortCompletion "req-2"].
Proof.
  intros w.
  destruct (pause_cancels_last_reported "req-2" [OnStream; Regenerate]
              (run [SetAskId "req-1"] helloReady)) as (_ & H).
  - discriminate.
  - reflexivity.
  - exact H.
Defined.

(** X7 at work: after a stream start, a regeneration and a change of
    language do not bring the spinner back. *)
Lemma spinner_never_returns_witness :
  spinner (view (render hello
             (run [Regenerate; ChangeLanguage french; Rerender hello]
                (run [OnStream] helloReady)))) = false.
Proof.
  destruct spinner_never_returns as (_ & _ & H).
  destruct (H [Regenerate; @ChangeLanguage collaborators french; Rerender hello]
              (run [OnStream] helloReady) hello) as [_ Hs].
  - vm_compute. discriminate.
  - exact Hs.
Defined.

(** X8 at work: a finished translation, then a change of language whose
    stream has started. *)
Lemma content_written_by_finish_and_regenerate_witness :
  footer_content (view (render hello
     (run [ChangeLanguage french; Rerender hello; OnStream]
        (run [OnFinish "hallo"] helloReady)))) = "hallo".
Proof.
  destruct content_written_by_finish_and_regenerate as (_ & H & _).
  destruct (H [@ChangeLanguage collaborators french; Rerender hello; OnStream]
              (run [OnFinish "hallo"] helloReady) hello eq_refl) as [_ Hf].
  rewrite Hf. vm_compute. reflexivity.
Defined.

(** X9 at work: another record of the table across a change of
    language. *)
Lemma settings_other_keys_untouched_witness :
  let w := run [Rerender hello] (mount hello {[ "theme" := "dark" ]}) in
  db (run [ChangeLanguage french] w) !! "theme" = Some "dark".
Proof.
  intros w.
  rewrite (settings_other_keys_untouched
             [@ChangeLanguage collaborators french] w "theme");
    [| discriminate].
  vm_compute. reflexivity.
Defined.

(** X10 at work: the request of the ready component. *)
Lemma every_submission_on_the_topic_witness :
  topicRef (refs (run [Rerender hello] (mount hello ∅)))
  = Some {| dt_id := "topic-1"; dt_assistantId := "default" |}.
Proof.
  destruct (every_submission_on_the_topic hello ∅ [Rerender hello]
              {| da_id := "default"; da_content := "Translate to English: hello" |}
              {| dt_id := "topic-1"; dt_assistantId := "default" |}
              "Translate to English: hello") as (H & _).
  - vm_compute. auto 12.
  - exact H.
Defined.


(** X12 at work: no selected text. *)
Lemma not_ready_never_initializes_witness :
  let none := env0 None true [] in
  initialized (hooks (run [Rerender none; Regenerate; ChangeLanguage french]
                        (mount none ∅))) = false.
Proof.
  intros none.
  destruct (not_ready_never_initializes none ∅
              [Rerender none; Regenerate; @ChangeLanguage collaborators french])
    as (H & _).
  - right. reflexivity.
  - cbn [rendersOf flat_map app]. apply Forall_cons.
    split; [right; reflexivity | apply Forall_nil; exact I].
  - exact H.
Defined.

(** X13 at work: a render that sees the assistant message processing. *)
Lemma rerender_status_witness :
  status (hooks (exec (rerender (env0 (Some "hello") true answering)) helloReady))
  = streaming.
Proof.
  destruct (rerender_status (env0 (Some "hello") true answering) helloReady)
    as (_ & _ & H & _).
  apply (H "processing").
  - vm_compute. discriminate.
  - vm_compute. reflexivity.
  - right. left. reflexivity.
Defined.



End FurtherExamples.
